(** * itk::KernelTransform2, a shallow embedding

    Source: src/Components/Transforms/SplineKernelTransform/itkKernelTransform2.h

    The header declares the class and defines inline: GetNumberOfParameters,
    SetStiffness, GetStiffness, SetAlpha, GetAlpha, SetPoissonRatio and
    GetPoissonRatio.  These are embedded from the C++ text.  The remaining
    member functions are only declared there (their bodies live in
    itkKernelTransform2.txx); each of those is introduced below by a comment
    starting with "Modelled from the spec:".

    Conventions.
    - [TScalarType] (template parameter, "probably only float and double")
      is a type [T] with the operations of the class [ScalarType];
      algebraic laws, where a proof needs them, are the classes
      [ScalarLaws] and [ScalarAssoc].
    - [double] (the type of m_Stiffness) is IEEE-754 binary64, here
      [spec_float] with the comparison functions of SpecFloat.
    - [unsigned int] is a Z reduced modulo 2^32.
    - Points and vectors (itk::Point, itk::Vector, vnl_vector_fixed) are
      [list T]; matrices (vnl_matrix, vnl_matrix_fixed) are lists of rows.
    - A member function that can throw returns an [Outcome].

    Source: src/Testing/itkGPUCastImageFilterTest.cxx

    The test program is embedded in the module [GPUCastImageFilterTest]:
    its file names, its error measure and its [main], with the ITK and
    OpenCL calls it makes collected in a [World]; a call outside every
    try block that throws ends the program ([Terminated]). *)

From Stdlib Require Import Ascii String.
From Stdlib Require Import ZArith List Bool Lia PeanoNat.
From Stdlib Require Import Floats.SpecFloat.
Import ListNotations.

(* ================================================================== *)
(** ** Scalars *)

(** The arithmetic the class uses on TScalarType. [of_double] is the
    implicit conversion double -> TScalarType. *)
Class ScalarType (T : Type) : Type := {
  Zero      : T;                   (* NumericTraits<T>::Zero *)
  One       : T;
  add       : T -> T -> T;
  sub       : T -> T -> T;
  mul       : T -> T -> T;
  of_double : spec_float -> T
}.

(** Laws under which the algebraic statements are proved.  Those of
    [ScalarLaws] are exact in IEEE arithmetic on finite values (up to the
    sign of zero); associativity holds on float and double up to rounding
    only. *)
Class ScalarLaws (T : Type) `{ScalarType T} : Prop := {
  add_0_l   : forall a : T, add Zero a = a;
  add_0_r   : forall a : T, add a Zero = a;
  mul_1_l   : forall a : T, mul One a = a;
  mul_0_l   : forall a : T, mul Zero a = Zero
}.

Class ScalarAssoc (T : Type) `{ScalarType T} : Prop := {
  add_assoc : forall a b c : T, add a (add b c) = add (add a b) c
}.

(** binary64 constants. *)
Definition dzero : spec_float := S754_zero false.              (* 0.0 *)
Definition dminus_one : spec_float :=                           (* -1.0 *)
  S754_finite true 4503599627370496%positive (-52)%Z.

Definition is_nan (f : spec_float) : bool :=
  match f with S754_nan => true | _ => false end.

(** The maximum of two doubles as fmax computes it: a NaN operand is
    ignored, otherwise the larger operand is returned. *)
Definition SFmax (a b : spec_float) : spec_float :=
  match SFcompare a b with
  | Some Lt => b
  | Some _ => a
  | None => if is_nan a then b else a
  end.

(** Truncating conversion double -> Z, for the integer instance. *)
Definition Z_of_double (f : spec_float) : Z :=
  match f with
  | S754_finite s m e =>
      let q := Z.shiftl (Zpos m) e in if s then Z.opp q else q
  | _ => 0%Z
  end.

#[export] Instance Z_ScalarType : ScalarType Z := {|
  Zero := 0%Z; One := 1%Z;
  add := Z.add; sub := Z.sub; mul := Z.mul;
  of_double := Z_of_double
|}.

(** TScalarType = double. *)
Definition double_ScalarType : ScalarType spec_float := {|
  Zero := dzero;
  One := S754_finite false 4503599627370496%positive (-52)%Z;
  add := SFadd 53 1024; sub := SFsub 53 1024; mul := SFmul 53 1024;
  of_double := fun d => d
|}.

(* ================================================================== *)
(** ** Vectors and matrices *)

Section LinearAlgebra.
Context {T : Type} `{ScalarType T}.

Fixpoint zipWith {A B C : Type} (f : A -> B -> C) (u : list A) (v : list B)
  : list C :=
  match u, v with
  | a :: u', b :: v' => f a b :: zipWith f u' v'
  | _, _ => []
  end.

Definition vadd : list T -> list T -> list T := zipWith add.
Definition vsub : list T -> list T -> list T := zipWith sub.

(** vnl: vector filled with one value. *)
Definition vfill (n : nat) (a : T) : list T := repeat a n.

Definition smul (c : T) (v : list T) : list T := map (mul c) v.

(** Sum of the products of corresponding components. *)
Fixpoint dot (u v : list T) : T :=
  match u, v with
  | a :: u', b :: v' => add (mul a b) (dot u' v')
  | _, _ => Zero
  end.

(** Matrix times column vector. *)
Definition mat_vec (A : list (list T)) (x : list T) : list T :=
  map (fun row => dot row x) A.

(** Row vector times matrix with [n] columns:
    (d G)[o] = sum over k of d[k] * G[k][o]. *)
Fixpoint vec_mat (n : nat) (d : list T) (G : list (list T)) : list T :=
  match d, G with
  | c :: d', row :: G' => vadd (smul c row) (vec_mat n d' G')
  | _, _ => vfill n Zero
  end.

(** Matrix times scalar, entry by entry, as vnl does it. *)
Definition mat_scale (A : list (list T)) (c : T) : list (list T) :=
  map (map (fun a => mul a c)) A.

(** The n x n identity. *)
Definition identity_row (n i : nat) : list T :=
  map (fun j => if Nat.eqb i j then One else Zero) (seq 0 n).
Definition identity (n : nat) : list (list T) :=
  map (identity_row n) (seq 0 n).


(** Sum of a list of vectors of dimension [n], first summand outermost. *)
Definition vsum (n : nat) (vs : list (list T)) : list T :=
  fold_right vadd (vfill n Zero) vs.

(** [acc] plus the vectors of a list, added to it one after the other in
    the order of the list. *)
Definition vsum_from (acc : list T) (vs : list (list T)) : list T :=
  fold_left vadd vs acc.

(** Matrix product, for a right factor with [n] columns. *)
Definition mat_mul (n : nat) (A B : list (list T)) : list (list T) :=
  map (fun row => vec_mat n row B) A.

(** Transpose of a matrix with [n] columns. *)
Definition transpose (n : nat) (A : list (list T)) : list (list T) :=
  map (fun j => map (fun row => nth j row Zero) A) (seq 0 n).

(** Matrices of [d] rows each, put side by side. *)
Definition block_row (d : nat) (blocks : list (list (list T)))
  : list (list T) :=
  map (fun r => concat (map (fun B => nth r B []) blocks)) (seq 0 d).

(** Columns i*d .. i*d + d - 1 of a matrix. *)
Definition column_block (d i : nat) (A : list (list T)) : list (list T) :=
  map (fun row => firstn d (skipn (i * d) row)) A.

(** A flat array read as [n] consecutive vectors of [d] components. *)
Fixpoint reshape (n d : nat) (v : list T) : list (list T) :=
  match n with
  | O => []
  | S n' => firstn d v :: reshape n' d (skipn d v)
  end.
End LinearAlgebra.

(* ================================================================== *)
(** ** The class *)

Section KernelTransform2.
Context {T : Type} `{ScalarType T}.

(** Template parameter NDimensions. *)
Variable NDimensions : nat.

(** itkStaticConstMacro(SpaceDimension, unsigned int, NDimensions) *)
Definition SpaceDimension : Z := Z.of_nat NDimensions.

(** The data members of the header, in its order.  m_I is the constant
    [identity NDimensions]; the nonzero Jacobian indices, "simply all
    params", are produced by GetJacobian. *)
Record KernelTransform2 : Type := {
  m_SourceLandmarks  : list (list T);
  m_TargetLandmarks  : list (list T);
  m_Stiffness        : spec_float;
  m_Displacements    : list (list T);
  m_LMatrix          : list (list T);
  m_LMatrixInverse   : list (list T);
  m_KMatrix          : list (list T);
  m_PMatrix          : list (list T);
  m_YMatrix          : list (list T);
  m_WMatrix          : list (list T);
  m_DMatrix          : list (list T);   (* one coefficient vector per landmark *)
  m_AMatrix          : list (list T);
  m_BVector          : list T;
  m_WMatrixComputed  : bool;
  m_LMatrixComputed  : bool;
  m_LInverseComputed : bool;
  m_PoissonRatio     : T
}.

Definition m_I : list (list T) := identity NDimensions.

(* ---------------------------------------------------------------- *)
(** *** Member functions defined in the header *)

Definition wrap_unsigned_long (z : Z) : Z := z mod 2 ^ 64.
Definition wrap_unsigned_int (z : Z) : Z := z mod 2 ^ 32.

(** PointSet::GetNumberOfPoints (ITK): the size of the container,
    an unsigned long. *)
Definition GetNumberOfPoints (points : list (list T)) : Z :=
  wrap_unsigned_long (Z.of_nat (length points)).

(** [virtual unsigned int GetNumberOfParameters(void) const
     { return ( this->m_SourceLandmarks->GetNumberOfPoints() * SpaceDimension ); }]
    The product is formed in unsigned long and converted to the
    unsigned int return type. *)
Definition GetNumberOfParameters (this : KernelTransform2) : Z :=
  wrap_unsigned_int
    (wrap_unsigned_long
       (GetNumberOfPoints (m_SourceLandmarks this) * SpaceDimension)).

(** [virtual void SetStiffness(double stiffness)
     {m_Stiffness=(stiffness>0)?stiffness:0.0;
      m_LMatrixComputed=false;
      m_LInverseComputed=false;
      m_WMatrixComputed=false; }] *)
Definition SetStiffness (stiffness : spec_float) (this : KernelTransform2)
  : KernelTransform2 :=
  {| m_SourceLandmarks := m_SourceLandmarks this;
     m_TargetLandmarks := m_TargetLandmarks this;
     m_Stiffness := if SFltb dzero stiffness then stiffness else dzero;
     m_Displacements := m_Displacements this;
     m_LMatrix := m_LMatrix this;
     m_LMatrixInverse := m_LMatrixInverse this;
     m_KMatrix := m_KMatrix this;
     m_PMatrix := m_PMatrix this;
     m_YMatrix := m_YMatrix this;
     m_WMatrix := m_WMatrix this;
     m_DMatrix := m_DMatrix this;
     m_AMatrix := m_AMatrix this;
     m_BVector := m_BVector this;
     m_WMatrixComputed := false;
     m_LMatrixComputed := false;
     m_LInverseComputed := false;
     m_PoissonRatio := m_PoissonRatio this |}.

(** itkGetMacro(Stiffness, double) *)
Definition GetStiffness (this : KernelTransform2) : spec_float :=
  m_Stiffness this.

(** [virtual void SetAlpha(TScalarType Alpha) {};] *)
Definition SetAlpha (Alpha : T) (this : KernelTransform2) : KernelTransform2 :=
  this.

(** [virtual TScalarType GetAlpha( void ) const { return -1.0; }] *)
Definition GetAlpha (this : KernelTransform2) : T := of_double dminus_one.

(** [virtual void SetPoissonRatio(TScalarType Nu) { this->m_PoissonRatio = Nu; }] *)
Definition SetPoissonRatio (Nu : T) (this : KernelTransform2) : KernelTransform2 :=
  {| m_SourceLandmarks := m_SourceLandmarks this;
     m_TargetLandmarks := m_TargetLandmarks this;
     m_Stiffness := m_Stiffness this;
     m_Displacements := m_Displacements this;
     m_LMatrix := m_LMatrix this;
     m_LMatrixInverse := m_LMatrixInverse this;
     m_KMatrix := m_KMatrix this;
     m_PMatrix := m_PMatrix this;
     m_YMatrix := m_YMatrix this;
     m_WMatrix := m_WMatrix this;
     m_DMatrix := m_DMatrix this;
     m_AMatrix := m_AMatrix this;
     m_BVector := m_BVector this;
     m_WMatrixComputed := m_WMatrixComputed this;
     m_LMatrixComputed := m_LMatrixComputed this;
     m_LInverseComputed := m_LInverseComputed this;
     m_PoissonRatio := Nu |}.

(** [virtual TScalarType GetPoissonRatio(void) const { return this->m_PoissonRatio; }] *)
Definition GetPoissonRatio (this : KernelTransform2) : T := m_PoissonRatio this.

(** [virtual bool GetHasNonZeroSpatialHessian( void ) const { return true; }] *)
Definition GetHasNonZeroSpatialHessian (this : KernelTransform2) : bool := true.

(** [virtual bool HasNonZeroJacobianOfSpatialHessian( void ) const { return true; }] *)
Definition HasNonZeroJacobianOfSpatialHessian (this : KernelTransform2) : bool :=
  true.

(* ---------------------------------------------------------------- *)
(** *** Collaborators *)

(** [virtual void ComputeG(const InputVectorType&, GMatrixType&) const]:
    the kernel of the concrete spline; it fills an NDimensions x
    NDimensions matrix. *)
Variable ComputeG : list T -> list (list T).

(** vnl_svd: the (pseudo-)inverse of a matrix. *)
Variable vnl_svd_inverse : list (list T) -> list (list T).

(** A kernel that fills an NDimensions x NDimensions matrix. *)
Definition square_kernel : Prop :=
  forall v, length (ComputeG v) = NDimensions
            /\ Forall (fun row => length row = NDimensions) (ComputeG v).

(** What a member function that can throw gives back: the object after
    a normal return, or the exception and the object as it was left. *)
Inductive Error : Type := ConfigurationMismatch.

Inductive Outcome : Type :=
| Done  (this : KernelTransform2)
| Throw (e : Error) (this : KernelTransform2).

(* ---------------------------------------------------------------- *)
(** *** Field updates *)

Definition invalidate (this : KernelTransform2) : KernelTransform2 :=
  {| m_SourceLandmarks := m_SourceLandmarks this;
     m_TargetLandmarks := m_TargetLandmarks this;
     m_Stiffness := m_Stiffness this;
     m_Displacements := m_Displacements this;
     m_LMatrix := m_LMatrix this;
     m_LMatrixInverse := m_LMatrixInverse this;
     m_KMatrix := m_KMatrix this;
     m_PMatrix := m_PMatrix this;
     m_YMatrix := m_YMatrix this;
     m_WMatrix := m_WMatrix this;
     m_DMatrix := m_DMatrix this;
     m_AMatrix := m_AMatrix this;
     m_BVector := m_BVector this;
     m_WMatrixComputed := false;
     m_LMatrixComputed := false;
     m_LInverseComputed := false;
     m_PoissonRatio := m_PoissonRatio this |}.

Definition with_SourceLandmarks (points : list (list T))
  (this : KernelTransform2) : KernelTransform2 :=
  {| m_SourceLandmarks := points;
     m_TargetLandmarks := m_TargetLandmarks this;
     m_Stiffness := m_Stiffness this;
     m_Displacements := m_Displacements this;
     m_LMatrix := m_LMatrix this;
     m_LMatrixInverse := m_LMatrixInverse this;
     m_KMatrix := m_KMatrix this;
     m_PMatrix := m_PMatrix this;
     m_YMatrix := m_YMatrix this;
     m_WMatrix := m_WMatrix this;
     m_DMatrix := m_DMatrix this;
     m_AMatrix := m_AMatrix this;
     m_BVector := m_BVector this;
     m_WMatrixComputed := m_WMatrixComputed this;
     m_LMatrixComputed := m_LMatrixComputed this;
     m_LInverseComputed := m_LInverseComputed this;
     m_PoissonRatio := m_PoissonRatio this |}.

Definition with_TargetLandmarks (points : list (list T))
  (this : KernelTransform2) : KernelTransform2 :=
  {| m_SourceLandmarks := m_SourceLandmarks this;
     m_TargetLandmarks := points;
     m_Stiffness := m_Stiffness this;
     m_Displacements := m_Displacements this;
     m_LMatrix := m_LMatrix this;
     m_LMatrixInverse := m_LMatrixInverse this;
     m_KMatrix := m_KMatrix this;
     m_PMatrix := m_PMatrix this;
     m_YMatrix := m_YMatrix this;
     m_WMatrix := m_WMatrix this;
     m_DMatrix := m_DMatrix this;
     m_AMatrix := m_AMatrix this;
     m_BVector := m_BVector this;
     m_WMatrixComputed := m_WMatrixComputed this;
     m_LMatrixComputed := m_LMatrixComputed this;
     m_LInverseComputed := m_LInverseComputed this;
     m_PoissonRatio := m_PoissonRatio this |}.

Definition with_L (K P L : list (list T)) (this : KernelTransform2)
  : KernelTransform2 :=
  {| m_SourceLandmarks := m_SourceLandmarks this;
     m_TargetLandmarks := m_TargetLandmarks this;
     m_Stiffness := m_Stiffness this;
     m_Displacements := m_Displacements this;
     m_LMatrix := L;
     m_LMatrixInverse := m_LMatrixInverse this;
     m_KMatrix := K;
     m_PMatrix := P;
     m_YMatrix := m_YMatrix this;
     m_WMatrix := m_WMatrix this;
     m_DMatrix := m_DMatrix this;
     m_AMatrix := m_AMatrix this;
     m_BVector := m_BVector this;
     m_WMatrixComputed := m_WMatrixComputed this;
     m_LMatrixComputed := true;
     m_LInverseComputed := m_LInverseComputed this;
     m_PoissonRatio := m_PoissonRatio this |}.

Definition with_LInverse (Li : list (list T)) (this : KernelTransform2)
  : KernelTransform2 :=
  {| m_SourceLandmarks := m_SourceLandmarks this;
     m_TargetLandmarks := m_TargetLandmarks this;
     m_Stiffness := m_Stiffness this;
     m_Displacements := m_Displacements this;
     m_LMatrix := m_LMatrix this;
     m_LMatrixInverse := Li;
     m_KMatrix := m_KMatrix this;
     m_PMatrix := m_PMatrix this;
     m_YMatrix := m_YMatrix this;
     m_WMatrix := m_WMatrix this;
     m_DMatrix := m_DMatrix this;
     m_AMatrix := m_AMatrix this;
     m_BVector := m_BVector this;
     m_WMatrixComputed := m_WMatrixComputed this;
     m_LMatrixComputed := m_LMatrixComputed this;
     m_LInverseComputed := true;
     m_PoissonRatio := m_PoissonRatio this |}.

Definition with_Y (d Y : list (list T)) (this : KernelTransform2)
  : KernelTransform2 :=
  {| m_SourceLandmarks := m_SourceLandmarks this;
     m_TargetLandmarks := m_TargetLandmarks this;
     m_Stiffness := m_Stiffness this;
     m_Displacements := d;
     m_LMatrix := m_LMatrix this;
     m_LMatrixInverse := m_LMatrixInverse this;
     m_KMatrix := m_KMatrix this;
     m_PMatrix := m_PMatrix this;
     m_YMatrix := Y;
     m_WMatrix := m_WMatrix this;
     m_DMatrix := m_DMatrix this;
     m_AMatrix := m_AMatrix this;
     m_BVector := m_BVector this;
     m_WMatrixComputed := m_WMatrixComputed this;
     m_LMatrixComputed := m_LMatrixComputed this;
     m_LInverseComputed := m_LInverseComputed this;
     m_PoissonRatio := m_PoissonRatio this |}.

Definition with_W (W : list (list T)) (this : KernelTransform2)
  : KernelTransform2 :=
  {| m_SourceLandmarks := m_SourceLandmarks this;
     m_TargetLandmarks := m_TargetLandmarks this;
     m_Stiffness := m_Stiffness this;
     m_Displacements := m_Displacements this;
     m_LMatrix := m_LMatrix this;
     m_LMatrixInverse := m_LMatrixInverse this;
     m_KMatrix := m_KMatrix this;
     m_PMatrix := m_PMatrix this;
     m_YMatrix := m_YMatrix this;
     m_WMatrix := W;
     m_DMatrix := m_DMatrix this;
     m_AMatrix := m_AMatrix this;
     m_BVector := m_BVector this;
     m_WMatrixComputed := m_WMatrixComputed this;
     m_LMatrixComputed := m_LMatrixComputed this;
     m_LInverseComputed := m_LInverseComputed this;
     m_PoissonRatio := m_PoissonRatio this |}.

Definition with_DAB (D A : list (list T)) (b : list T)
  (this : KernelTransform2) : KernelTransform2 :=
  {| m_SourceLandmarks := m_SourceLandmarks this;
     m_TargetLandmarks := m_TargetLandmarks this;
     m_Stiffness := m_Stiffness this;
     m_Displacements := m_Displacements this;
     m_LMatrix := m_LMatrix this;
     m_LMatrixInverse := m_LMatrixInverse this;
     m_KMatrix := m_KMatrix this;
     m_PMatrix := m_PMatrix this;
     m_YMatrix := m_YMatrix this;
     m_WMatrix := [];
     m_DMatrix := D;
     m_AMatrix := A;
     m_BVector := b;
     m_WMatrixComputed := m_WMatrixComputed this;
     m_LMatrixComputed := m_LMatrixComputed this;
     m_LInverseComputed := m_LInverseComputed this;
     m_PoissonRatio := m_PoissonRatio this |}.

Definition with_WMatrixComputed (this : KernelTransform2) : KernelTransform2 :=
  {| m_SourceLandmarks := m_SourceLandmarks this;
     m_TargetLandmarks := m_TargetLandmarks this;
     m_Stiffness := m_Stiffness this;
     m_Displacements := m_Displacements this;
     m_LMatrix := m_LMatrix this;
     m_LMatrixInverse := m_LMatrixInverse this;
     m_KMatrix := m_KMatrix this;
     m_PMatrix := m_PMatrix this;
     m_YMatrix := m_YMatrix this;
     m_WMatrix := m_WMatrix this;
     m_DMatrix := m_DMatrix this;
     m_AMatrix := m_AMatrix this;
     m_BVector := m_BVector this;
     m_WMatrixComputed := true;
     m_LMatrixComputed := m_LMatrixComputed this;
     m_LInverseComputed := m_LInverseComputed this;
     m_PoissonRatio := m_PoissonRatio this |}.

(* ---------------------------------------------------------------- *)
(** *** Member functions declared in the header only *)

(** Modelled from the spec: the body of ComputeReflexiveG is in
    itkKernelTransform2.txx.  Spec 4.2: "default implementation returns
    stiffness x Identity".  The landmark is not looked at. *)
Definition ComputeReflexiveG (this : KernelTransform2) (landmark : nat)
  : list (list T) :=
  mat_scale m_I (of_double (m_Stiffness this)).

(** Modelled from the spec: the body of ComputeD is in the .txx.
    Spec 3: "displacement[i] = target[i] - source[i]". *)
Definition ComputeD (this : KernelTransform2) : list (list T) :=
  zipWith vsub (m_TargetLandmarks this) (m_SourceLandmarks this).

(** Modelled from the spec: the body of ComputeK is in the .txx.
    Spec 3 and 4.3: block (i,j) is the kernel response to the displacement
    between landmark positions i and j for i <> j, and the reflexive
    response for i = j. *)
Definition ComputeK (this : KernelTransform2) : list (list T) :=
  let p := m_SourceLandmarks this in
  concat
    (map (fun i =>
            block_row NDimensions
              (map (fun j =>
                      if Nat.eqb i j then ComputeReflexiveG this i
                      else ComputeG (vsub (nth i p []) (nth j p [])))
                   (seq 0 (length p))))
         (seq 0 (length p))).

(** Modelled from the spec: the body of ComputeP is in the .txx.
    Spec 4.3: one block of NDimensions rows per source landmark, the
    landmark's coordinates first (one scaled identity per axis), the
    identity block of the translation last. *)
Definition ComputeP (this : KernelTransform2) : list (list T) :=
  concat
    (map (fun p =>
            block_row NDimensions
              (map (fun a => mat_scale m_I (nth a p Zero)) (seq 0 NDimensions)
               ++ [m_I]))
         (m_SourceLandmarks this)).

(** Number of affine unknowns, D + D^2. *)
Definition affine_rows : nat := NDimensions * (NDimensions + 1).

(** Modelled from the spec: the body of ComputeL is in the .txx.
    Spec 4.3: L = [ K P ; P^T 0 ]. *)
Definition ComputeL (this : KernelTransform2) : KernelTransform2 :=
  let K := ComputeK this in
  let P := ComputeP this in
  let L := zipWith (@app T) K P
           ++ map (fun row => row ++ vfill affine_rows Zero)
                  (transpose affine_rows P) in
  with_L K P L this.

(** Modelled from the spec: the body of ComputeLInverse is in the .txx.
    Spec 4.3 and 4.4: L is assembled when its flag is false, then
    inverted. *)
Definition ComputeLInverse (this : KernelTransform2) : KernelTransform2 :=
  let this1 := if m_LMatrixComputed this then this else ComputeL this in
  with_LInverse (vnl_svd_inverse (m_LMatrix this1)) this1.

(** Modelled from the spec: the body of ComputeY is in the .txx.
    Spec 4.3: the flattened displacements on top of D + D^2 zero rows;
    one column. *)
Definition ComputeY (this : KernelTransform2) : KernelTransform2 :=
  let d := ComputeD this in
  with_Y d (map (fun y => [y]) (concat d ++ vfill affine_rows Zero)) this.

(** Modelled from the spec: the body of ReorganizeW is in the .txx.
    Spec 4.4: the first N*D rows of W are the deformable coefficients,
    one vector per landmark; the next D^2 rows fill A column by column;
    the last D rows are b.  The header warns that W is released. *)
Definition ReorganizeW (this : KernelTransform2) : KernelTransform2 :=
  let n := length (m_SourceLandmarks this) in
  let w := concat (m_WMatrix this) in
  let rest := skipn (n * NDimensions) w in
  with_DAB (reshape n NDimensions w)
           (transpose NDimensions (reshape NDimensions NDimensions rest))
           (firstn NDimensions (skipn (NDimensions * NDimensions) rest))
           this.

(** Modelled from the spec: the body of ComputeWMatrix is in the .txx.
    Spec 7: differing landmark counts are "a hard failure before any
    matrix assembly is attempted".  Spec 4.4: "Special case N=0: skip the
    solve entirely; A = Identity, b = 0, no deformable coefficients";
    otherwise W = L^-1 * Y, followed by ReorganizeW. *)
Definition ComputeWMatrix (this : KernelTransform2) : Outcome :=
  if negb (Nat.eqb (length (m_SourceLandmarks this))
                   (length (m_TargetLandmarks this)))
  then Throw ConfigurationMismatch this
  else
    match m_SourceLandmarks this with
    | [] =>
        Done (with_WMatrixComputed
                (with_DAB [] m_I (vfill NDimensions Zero) this))
    | _ :: _ =>
        let this1 :=
          if m_LInverseComputed this then this else ComputeLInverse this in
        let this2 := ComputeY this1 in
        let this3 :=
          with_W (mat_mul 1 (m_LMatrixInverse this2) (m_YMatrix this2)) this2 in
        Done (with_WMatrixComputed (ReorganizeW this3))
    end.

(** Modelled from the spec: the body of ComputeDeformationContribution is
    in the .txx.  Header: "Compute the contribution of the landmarks
    weighted by the kernel funcion to the global deformation of the
    space"; it adds to [result], landmark after landmark, the coefficient
    vector of the landmark times the kernel response to the displacement
    of the point from the landmark (spec 4.5). *)
Definition ComputeDeformationContribution (this : KernelTransform2)
  (inputPoint : list T) (result : list T) : list T :=
  fold_left
    (fun acc pd =>
       vadd acc
            (vec_mat NDimensions (snd pd) (ComputeG (vsub inputPoint (fst pd)))))
    (combine (m_SourceLandmarks this) (m_DMatrix this))
    result.

(** Modelled from the spec: the body of TransformPoint is in the .txx.
    Spec 4.5: "result = A x + b + sum_i (Deformable[i] .
    computeInfluence(x - source[i]))". *)
Definition TransformPoint (this : KernelTransform2) (thisPoint : list T)
  : list T :=
  ComputeDeformationContribution this thisPoint
    (vadd (mat_vec (m_AMatrix this) thisPoint) (m_BVector this)).

(** Modelled from the spec: the body of GetJacobian is in the .txx.
    Spec 4.5: a D x (N*D) matrix whose column block i is the kernel
    response to x - source[i]; header: the nonzero Jacobian indices are
    "simply all params". *)
Definition GetJacobian (this : KernelTransform2) (point : list T)
  : list (list T) * list nat :=
  (block_row NDimensions
     (map (fun p => ComputeG (vsub point p)) (m_SourceLandmarks this)),
   seq 0 (length (m_SourceLandmarks this) * NDimensions)).

(** Modelled from the spec: the body of SetParameters is in the .txx.
    Spec 4.6: "flatVector length must equal N*D; reinterprets it
    landmark-major/axis-minor into the Source Landmark Store,
    invalidating derived matrices"; spec 7: another length is a hard
    failure.  The element type of ParametersType comes from the
    superclass and is taken to be the coordinate type. *)
Definition SetParameters (parameters : list T) (this : KernelTransform2)
  : Outcome :=
  let n := length (m_SourceLandmarks this) in
  if Nat.eqb (length parameters) (n * NDimensions)
  then Done (invalidate
               (with_SourceLandmarks (reshape n NDimensions parameters) this))
  else Throw ConfigurationMismatch this.

(** Modelled from the spec: the body of GetParameters is in the .txx.
    Spec 4.6: "flattens current source landmarks". *)
Definition GetParameters (this : KernelTransform2) : list T :=
  concat (m_SourceLandmarks this).

(** Modelled from the spec: the body of SetFixedParameters is in the
    .txx.  Spec 4.6: "same shape contract but writes the Target Landmark
    Store". *)
Definition SetFixedParameters (parameters : list T) (this : KernelTransform2)
  : Outcome :=
  let n := length (m_TargetLandmarks this) in
  if Nat.eqb (length parameters) (n * NDimensions)
  then Done (invalidate
               (with_TargetLandmarks (reshape n NDimensions parameters) this))
  else Throw ConfigurationMismatch this.

(** Modelled from the spec: the body of GetFixedParameters is in the
    .txx.  Header: "Gets the Target Landmarks". *)
Definition GetFixedParameters (this : KernelTransform2) : list T :=
  concat (m_TargetLandmarks this).

(** Modelled from the spec: the body of SetIdentity is in the .txx.
    Spec 4.6: "clears both landmark sets to empty". *)
Definition SetIdentity (this : KernelTransform2) : KernelTransform2 :=
  invalidate (with_TargetLandmarks [] (with_SourceLandmarks [] this)).
End KernelTransform2.

(* ================================================================== *)
(** ** Sample objects over the integers *)

(** 1.0 and -2.0 as doubles. *)
Definition done_ : spec_float :=
  S754_finite false 4503599627370496%positive (-52)%Z.
Definition dminus_two : spec_float :=
  S754_finite true 4503599627370496%positive (-51)%Z.

(** An object with no landmarks whose caches are all marked valid. *)
Definition fitted_empty : @KernelTransform2 Z :=
  {| m_SourceLandmarks := []; m_TargetLandmarks := [];
     m_Stiffness := dzero; m_Displacements := [];
     m_LMatrix := []; m_LMatrixInverse := [];
     m_KMatrix := []; m_PMatrix := []; m_YMatrix := []; m_WMatrix := [];
     m_DMatrix := []; m_AMatrix := [[1; 0]; [0; 1]]%Z; m_BVector := [0; 0]%Z;
     m_WMatrixComputed := true; m_LMatrixComputed := true;
     m_LInverseComputed := true; m_PoissonRatio := 0%Z |}.

(** The same object with the given landmarks. *)
Definition with_landmarks (source target : list (list Z))
  : @KernelTransform2 Z :=
  with_TargetLandmarks target (with_SourceLandmarks source fitted_empty).

(** Fitted objects with two and with three landmarks in the plane. *)
Definition two_landmarks : @KernelTransform2 Z :=
  with_landmarks [[0; 0]; [1; 0]]%Z [[0; 0]; [2; 0]]%Z.

Definition three_landmarks : @KernelTransform2 Z :=
  with_landmarks [[0; 0]; [1; 0]; [0; 1]]%Z [[0; 0]; [2; 0]; [0; 2]]%Z.

(** 2^31 two-dimensional landmarks. *)
Definition many_landmarks : list (list Z) :=
  repeat [0; 0]%Z (Z.to_nat 2147483648).

Definition huge : @KernelTransform2 Z :=
  with_landmarks many_landmarks many_landmarks.

(** A kernel over the integers, two-dimensional. *)
Definition sample_kernel (v : list Z) : list (list Z) :=
  [[nth 0 v 0; nth 1 v 0]; [nth 1 v 0; nth 0 v 0]]%Z.

(** A stand-in for the inversion of L. *)
Definition sample_inverse (L : list (list Z)) : list (list Z) := L.

(** Two landmarks in the plane, nothing computed yet. *)
Definition sample_object : @KernelTransform2 Z :=
  invalidate two_landmarks.

(** The object a call leaves behind, normal return or not. *)
Definition object_of {T : Type} (o : @Outcome T) : @KernelTransform2 T :=
  match o with
  | Done this => this
  | Throw _ this => this
  end.

Definition sample_fitted : @KernelTransform2 Z :=
  object_of (ComputeWMatrix 2 sample_kernel sample_inverse sample_object).

(** The fit the spec expects for source (0,0), (1,0), (0,1) and target
    (0,0), (2,0), (0,2): A = 2 I, b = 0, no deformation. *)
Definition scale_by_two : @KernelTransform2 Z :=
  with_WMatrixComputed
    (with_DAB [[0; 0]; [0; 0]; [0; 0]]%Z [[2; 0]; [0; 2]]%Z [0; 0]%Z
       three_landmarks).

(** The doubles nearest to 0.1, 0.2 and 0.3. *)
Definition d0_1 : spec_float := S754_finite false 7205759403792794 (-56).
Definition d0_2 : spec_float := S754_finite false 7205759403792794 (-55).
Definition d0_3 : spec_float := S754_finite false 5404319552844595 (-54).

(** A one-dimensional kernel over double with the constant response 1.0. *)
Definition unit_kernel (v : list spec_float) : list (list spec_float) :=
  [[done_]].

(** TScalarType = double, NDimensions = 1: two landmarks at 0.0 with the
    targets 1.0 and 0.0, and a cached inverse of L that gives the weights
    0.2 and 0.3, A = 0.0 and b = 0.1. *)
Definition double_object : @KernelTransform2 spec_float :=
  {| m_SourceLandmarks := [[dzero]; [dzero]];
     m_TargetLandmarks := [[done_]; [dzero]];
     m_Stiffness := dzero; m_Displacements := [];
     m_LMatrix := [];
     m_LMatrixInverse := [[d0_2; dzero; dzero; dzero];
                          [d0_3; dzero; dzero; dzero];
                          [dzero; dzero; dzero; dzero];
                          [d0_1; dzero; dzero; dzero]];
     m_KMatrix := []; m_PMatrix := []; m_YMatrix := []; m_WMatrix := [];
     m_DMatrix := []; m_AMatrix := []; m_BVector := [];
     m_WMatrixComputed := false; m_LMatrixComputed := true;
     m_LInverseComputed := true; m_PoissonRatio := dzero |}.

Definition double_fitted : @KernelTransform2 spec_float :=
  object_of (@ComputeWMatrix spec_float double_ScalarType 1 unit_kernel
               (fun L => L) double_object).

(* ================================================================== *)
(** ** Sequences of calls of the header's setters *)

(** A call of one of the setters the header defines inline. *)
Inductive Mutator (T : Type) : Type :=
| CallSetStiffness (stiffness : spec_float)
| CallSetAlpha (Alpha : T)
| CallSetPoissonRatio (Nu : T).

Arguments CallSetStiffness {T} stiffness.
Arguments CallSetAlpha {T} Alpha.
Arguments CallSetPoissonRatio {T} Nu.

Definition call {T : Type} (m : Mutator T) (this : @KernelTransform2 T)
  : @KernelTransform2 T :=
  match m with
  | CallSetStiffness stiffness => SetStiffness stiffness this
  | CallSetAlpha Alpha => SetAlpha Alpha this
  | CallSetPoissonRatio Nu => SetPoissonRatio Nu this
  end.

(** The calls of a list, first to last. *)
Definition calls {T : Type} (ms : list (Mutator T))
  (this : @KernelTransform2 T) : @KernelTransform2 T :=
  fold_left (fun t m => call m t) ms this.

Definition is_SetStiffness {T : Type} (m : Mutator T) : bool :=
  match m with CallSetStiffness _ => true | _ => false end.

Definition is_SetPoissonRatio {T : Type} (m : Mutator T) : bool :=
  match m with CallSetPoissonRatio _ => true | _ => false end.

(* ================================================================== *)
(** ** The test program itkGPUCastImageFilterTest.cxx *)

Module GPUCastImageFilterTest.

(** <cstdlib> *)
Definition EXIT_SUCCESS : Z := 0.
Definition EXIT_FAILURE : Z := 1.

(** std::string::npos, the largest value of size_t. *)
Definition npos : Z := 2 ^ 64 - 1.

(** A character occurs in a string. *)
Definition occurs (c : ascii) (s : string) : Prop :=
  In c (list_ascii_of_string s).

(** Index of the last occurrence of a character, if there is one. *)
Fixpoint last_index (c : ascii) (s : string) : option nat :=
  match s with
  | EmptyString => None
  | String a s' =>
      match last_index c s' with
      | Some i => Some (S i)
      | None => if Ascii.eqb a c then Some O else None
      end
  end.

(** [s.rfind( c )] for a string of one character: the index of its last
    occurrence, npos when there is none. *)
Definition rfind (s : string) (c : ascii) : Z :=
  match last_index c s with
  | Some i => Z.of_nat i
  | None => npos
  end.

(** [s.substr( 0, n )]: the first min(n, size) characters. *)
Definition substr0 (s : string) (n : Z) : string :=
  substring 0 (Z.to_nat (Z.min n (Z.of_nat (String.length s)))) s.

(** [std::string baseName = inputFileName.substr( 0, inputFileName.rfind( "." ) );] *)
Definition baseName (inputFileName : string) : string :=
  substr0 inputFileName (rfind inputFileName "."%char).

(** [outputDirectory + "/" + baseName + "-out-cpu.mha"] *)
Definition outputFileNameCPU (inputFileName outputDirectory : string)
  : string :=
  (((outputDirectory ++ "/") ++ baseName inputFileName) ++ "-out-cpu.mha")%string.

(** [outputDirectory + "/" + baseName + "-out-gpu.mha"] *)
Definition outputFileNameGPU (inputFileName outputDirectory : string)
  : string :=
  (((outputDirectory ++ "/") ++ baseName inputFileName) ++ "-out-gpu.mha")%string.

(** [const double epsilon = 1e-3;]  the double nearest to 0.001. *)
Definition epsilon : spec_float :=
  S754_finite false 4611686018427388%positive (-62)%Z.

(** [const unsigned int runTimes = 5;] *)
Definition runTimes : nat := 5.

(** [static_cast<double>( pixel )] for a float pixel: exact. *)
Definition static_cast_double (pixel : spec_float) : spec_float :=
  match pixel with
  | S754_finite s m e => binary_round 53 1024 s m e
  | _ => pixel
  end.

(** Conversion of an unsigned long to double, to nearest. *)
Definition double_of_unsigned_long (n : Z) : spec_float :=
  binary_normalize 53 1024 (n mod 2 ^ 64) 0 false.

(** The loop
    [for( cit.GoToBegin(), git.GoToBegin(); !cit.IsAtEnd(); ++cit, ++git )
     { double err = static_cast<double>( cit.Get() ) - static_cast<double>( git.Get() );
       rmse += err * err; }]
    over the pixels of the two images.  Only cit is tested for the end; a
    read through git behind its last pixel gives [None]. *)
Fixpoint sum_of_squares (cit git : list spec_float) (rmse : spec_float)
  : option spec_float :=
  match cit with
  | [] => Some rmse
  | c :: cit' =>
      match git with
      | [] => None
      | g :: git' =>
          let err := SFsub 53 1024 (static_cast_double c)
                                   (static_cast_double g) in
          sum_of_squares cit' git'
            (SFadd 53 1024 rmse (SFmul 53 1024 err err))
      end
  end.

(** [double rmse = 0.0; ... (the loop) ...
     rmse = vcl_sqrt( rmse / filter->GetOutput()->GetLargestPossibleRegion().GetNumberOfPixels() );] *)
Definition rmse (cpu gpu : list spec_float) : option spec_float :=
  match sum_of_squares cpu gpu dzero with
  | Some sum =>
      Some (SFsqrt 53 1024
              (SFdiv 53 1024 sum
                 (double_of_unsigned_long (Z.of_nat (length cpu)))))
  | None => None
  end.

(** What the program gets from ITK and OpenCL.  For each call that runs
    the pipeline or builds the GPU filter the boolean says whether the
    call returned without an exception.  The other calls (New of the CPU
    objects, the setters, Modified, GetOutput, the time probes and the
    output streams) are taken to return. *)
Record World : Type := {
  IsGPUAvailable    : bool;                       (* itk::IsGPUAvailable() *)
  reader_Update     : string -> bool;             (* reader->Update(), line 77 *)
  filter_Update     : string -> nat -> bool;      (* filter->Update(), run i *)
  filter_GetOutput  : string -> list spec_float;  (* pixels of the CPU result *)
  writer_Update     : string -> bool;             (* writer->Update() *)
  gpuFilter_New     : bool;                       (* FilterType::New() with the GPU factories *)
  gpuFilter_Update  : string -> nat -> bool;      (* gpuFilter->Update(), run i *)
  GPUExplicitSync   : string -> nat -> bool;      (* itk::GPUExplicitSync, run i *)
  gpuFilter_GetOutput : string -> list spec_float;  (* pixels of the GPU result *)
  gpuWriter_Update  : string -> bool              (* gpuWriter->Update() *)
}.

(** How the program ends: main returns a code; an exception leaves main
    uncaught and std::terminate is called; or the behaviour is undefined. *)
Inductive ProgramResult : Type :=
| Returned (code : Z)
| Terminated
| UndefinedBehaviour.

(** The loop over the GPU runs, from run [i], [n] runs to go:
    [gpuFilter->SetInput( gpuReader->GetOutput() );
     try{ gpuFilter->Update(); }
     catch( itk::ExceptionObject & e ) { ... return EXIT_FAILURE; }
     itk::GPUExplicitSync<FilterType, OutputImageType>( gpuFilter, false, false );
     gpuFilter->Modified();]
    The exception of Update is caught, one of GPUExplicitSync is not.
    [None] when the loop runs to its end. *)
Fixpoint gpu_runs (w : World) (inputFileName : string) (i n : nat)
  : option ProgramResult :=
  match n with
  | O => None
  | S n' =>
      if negb (gpuFilter_Update w inputFileName i)
      then Some (Returned EXIT_FAILURE)
      else if negb (GPUExplicitSync w inputFileName i) then Some Terminated
      else gpu_runs w inputFileName (S i) n'
  end.

(** [int main( int argc, char * argv[] )]; argc is the length of argv.
    The output on std::cout and std::cerr is left out. *)
Definition main (w : World) (argv : list string) : ProgramResult :=
  let argc := Z.of_nat (length argv) in
  if (argc <? 2)%Z then Returned EXIT_FAILURE
  else if negb (IsGPUAvailable w) then Returned EXIT_FAILURE
  else
    match nth_error argv 1, nth_error argv 2 with
    | Some inputFileName, Some outputDirectory =>
        if negb (reader_Update w inputFileName) then Terminated
        else if negb (forallb (filter_Update w inputFileName) (seq 0 runTimes))
        then Returned EXIT_FAILURE
        else if negb (writer_Update w
                        (outputFileNameCPU inputFileName outputDirectory))
        then Returned EXIT_FAILURE
        else if negb (gpuFilter_New w) then Returned EXIT_FAILURE
        else
          match gpu_runs w inputFileName 0 runTimes with
          | Some result => result
          | None =>
              if negb (gpuWriter_Update w
                         (outputFileNameGPU inputFileName outputDirectory))
              then Returned EXIT_FAILURE
              else
                match rmse (filter_GetOutput w inputFileName)
                           (gpuFilter_GetOutput w inputFileName) with
                | Some r =>
                    if SFltb epsilon r then Returned EXIT_FAILURE
                    else Returned EXIT_SUCCESS
                | None => UndefinedBehaviour
                end
          end
    | _, _ => UndefinedBehaviour
    end.

(** Every call that can fail comes back without an exception. *)
Definition all_calls_return (w : World) (inputFileName outputDirectory : string)
  : bool :=
  IsGPUAvailable w
  && reader_Update w inputFileName
  && forallb (filter_Update w inputFileName) (seq 0 runTimes)
  && writer_Update w (outputFileNameCPU inputFileName outputDirectory)
  && gpuFilter_New w
  && forallb (fun i => gpuFilter_Update w inputFileName i
                       && GPUExplicitSync w inputFileName i)
             (seq 0 runTimes)
  && gpuWriter_Update w (outputFileNameGPU inputFileName outputDirectory).

(** A world in which every call returns, with the given images. *)
Definition quiet_world (cpu gpu : list spec_float) : World :=
  {| IsGPUAvailable := true;
     reader_Update := fun _ => true;
     filter_Update := fun _ _ => true;
     filter_GetOutput := fun _ => cpu;
     writer_Update := fun _ => true;
     gpuFilter_New := true;
     gpuFilter_Update := fun _ _ => true;
     GPUExplicitSync := fun _ _ => true;
     gpuFilter_GetOutput := fun _ => gpu;
     gpuWriter_Update := fun _ => true |}.

(** The same world, but reader->Update() throws. *)
Definition unreadable_world (cpu gpu : list spec_float) : World :=
  {| IsGPUAvailable := true;
     reader_Update := fun _ => false;
     filter_Update := fun _ _ => true;
     filter_GetOutput := fun _ => cpu;
     writer_Update := fun _ => true;
     gpuFilter_New := true;
     gpuFilter_Update := fun _ _ => true;
     GPUExplicitSync := fun _ _ => true;
     gpuFilter_GetOutput := fun _ => gpu;
     gpuWriter_Update := fun _ => true |}.

(** The float 1.0, and a command line with both arguments. *)
Definition float_one : spec_float := S754_finite false 8388608 (-23).

Definition sample_argv : list string :=
  ["prog"; "image.mha"; "out"]%string.

End GPUCastImageFilterTest.

(* ================================================================== *)
(** ** The integers satisfy the scalar laws *)

Lemma Z_ScalarLaws : ScalarLaws Z.
Proof.
  constructor; intros; unfold add, mul, Zero, One, Z_ScalarType; lia.
Defined.

Lemma Z_ScalarAssoc : ScalarAssoc Z.
Proof.
  constructor; intros; unfold add, Z_ScalarType; lia.
Defined.

#[export] Existing Instance Z_ScalarLaws.
#[export] Existing Instance Z_ScalarAssoc.

(* ================================================================== *)
(** ** Facts about lists, vectors and matrices *)

Section ListFacts.
Context {A : Type}.

Lemma map_nth_seq (l : list A) (d : A) :
  map (fun i => nth i l d) (seq 0 (length l)) = l.
Proof.
  induction l as [| a l IH]; [reflexivity |].
  cbn [length seq map nth]. f_equal.
  rewrite <- seq_shift, map_map. exact IH.
Qed.

Lemma length_reshape (n d : nat) (v : list A) :
  length (reshape n d v) = n.
Proof.
  revert v. induction n as [| n IH]; intros v; [reflexivity |].
  cbn [reshape length]. rewrite IH. reflexivity.
Qed.

Lemma concat_reshape (n d : nat) (v : list A) :
  length v = n * d -> concat (reshape n d v) = v.
Proof.
  revert v. induction n as [| n IH]; intros v Hlen.
  - destruct v; [reflexivity | discriminate Hlen].
  - cbn [reshape concat]. rewrite IH.
    + apply firstn_skipn.
    + rewrite length_skipn, Hlen. simpl. lia.
Qed.

Lemma firstn_concat_head (d : nat) (l : list (list A)) :
  Forall (fun y => length y = d) l ->
  firstn d (concat l) = nth 0 l [].
Proof.
  intros Hall. destruct l as [| y l].
  - cbn. apply firstn_nil.
  - inversion Hall; subst. cbn [concat nth].
    rewrite firstn_app, Nat.sub_diag, firstn_O, app_nil_r.
    apply firstn_all.
Qed.

Lemma length_concat_uniform (d : nat) (l : list (list A)) :
  Forall (fun y => length y = d) l ->
  length (concat l) = length l * d.
Proof.
  induction 1 as [| y l Hy Hl IH]; [reflexivity |].
  cbn [concat length]. rewrite length_app, IH, Hy. reflexivity.
Qed.

Lemma firstn_skipn_concat_uniform (d : nat) (l : list (list A)) (i : nat) :
  Forall (fun y => length y = d) l ->
  firstn d (skipn (i * d) (concat l)) = nth i l [].
Proof.
  revert l. induction i as [| i IH]; intros l Hall.
  - apply firstn_concat_head. exact Hall.
  - destruct l as [| y l].
    + cbn [concat nth]. rewrite skipn_nil. apply firstn_nil.
    + inversion Hall as [| ? ? Hy Hl]; subst.
      cbn [concat nth Nat.mul].
      rewrite skipn_app, skipn_all2 by lia.
      replace (length y + i * length y - length y) with (i * length y)
        by lia.
      cbn [app]. apply IH. exact Hl.
Qed.

End ListFacts.

Section VectorFacts.
Context {T : Type} `{ScalarLaws T} `{!ScalarAssoc T}.

Lemma length_zipWith_l {A B C : Type} (f : A -> B -> C) (u : list A)
  (v : list B) :
  length (zipWith f u v) <= length u.
Proof.
  revert v. induction u as [| a u IH]; intros [| b v]; cbn; try lia.
  specialize (IH v). lia.
Qed.

Lemma length_zipWith_r {A B C : Type} (f : A -> B -> C) (u : list A)
  (v : list B) :
  length (zipWith f u v) <= length v.
Proof.
  revert v. induction u as [| a u IH]; intros [| b v]; cbn; try lia.
  specialize (IH v). lia.
Qed.

Lemma vadd_assoc (u v w : list T) :
  vadd u (vadd v w) = vadd (vadd u v) w.
Proof.
  unfold vadd. revert v w.
  induction u as [| a u IH]; intros [| b v] [| c w]; cbn; try reflexivity.
  rewrite add_assoc, IH. reflexivity.
Qed.

Lemma vadd_zero_r (n : nat) (u : list T) :
  length u <= n -> vadd u (vfill n Zero) = u.
Proof.
  unfold vadd, vfill. revert n.
  induction u as [| a u IH]; intros n Hle; [reflexivity |].
  destruct n as [| n]; [cbn in Hle; lia |].
  cbn in *. rewrite add_0_r, IH by lia. reflexivity.
Qed.

(** Adding the terms one after the other to an accumulator gives the
    accumulator plus their sum. *)
Lemma fold_left_vadd (n : nat) (cs : list (list T)) (acc : list T) :
  length acc <= n ->
  fold_left vadd cs acc = vadd acc (vsum n cs).
Proof.
  revert acc. induction cs as [| c cs IH]; intros acc Hle.
  - cbn. symmetry. apply vadd_zero_r. exact Hle.
  - cbn [fold_left vsum fold_right]. rewrite IH.
    + fold (vsum n cs). symmetry. apply vadd_assoc.
    + pose proof (length_zipWith_l add acc c). unfold vadd. lia.
Qed.

Lemma dot_unit (i : nat) (x : list T) (s : nat) :
  dot (map (fun j => if Nat.eqb i j then One else Zero) (seq s (length x))) x
  = if (s <=? i) && (i <? s + length x) then nth (i - s) x Zero else Zero.
Proof.
  revert s. induction x as [| a x IH]; intros s.
  - cbn [length seq map dot].
    destruct ((s <=? i) && (i <? s + 0)); [| reflexivity].
    destruct (i - s); reflexivity.
  - cbn [length seq map dot]. rewrite IH.
    destruct (Nat.eqb_spec i s) as [-> | Hne].
    + rewrite mul_1_l.
      replace (S s <=? s) with false by (symmetry; apply Nat.leb_gt; lia).
      cbn [andb]. rewrite add_0_r.
      rewrite Nat.leb_refl.
      replace (s <? s + S (length x)) with true
        by (symmetry; apply Nat.ltb_lt; lia).
      rewrite Nat.sub_diag. reflexivity.
    + rewrite mul_0_l, add_0_l.
      destruct (S s <=? i) eqn:E1.
      * apply Nat.leb_le in E1.
        replace (s <=? i) with true by (symmetry; apply Nat.leb_le; lia).
        replace (i <? s + S (length x)) with (i <? S s + length x)
          by (f_equal; lia).
        cbn [andb]. destruct (i <? S s + length x); [| reflexivity].
        replace (i - s) with (S (i - S s)) by lia. reflexivity.
      * apply Nat.leb_gt in E1.
        replace (s <=? i) with false by (symmetry; apply Nat.leb_gt; lia).
        reflexivity.
Qed.

Lemma mat_vec_identity (x : list T) :
  mat_vec (identity (length x)) x = x.
Proof.
  unfold mat_vec, identity, identity_row. rewrite map_map.
  transitivity (map (fun i => nth i x Zero) (seq 0 (length x)));
    [| apply map_nth_seq].
  apply map_ext_in. intros i Hi. apply in_seq in Hi.
  rewrite dot_unit. cbn [Nat.leb].
  replace (i <? 0 + length x) with true by (symmetry; apply Nat.ltb_lt; lia).
  rewrite Nat.sub_0_r. reflexivity.
Qed.

End VectorFacts.

Section FoldFacts.
Context {A B C : Type}.

Lemma fold_left_map_step (f : C -> B -> C) (g : A -> B) (l : list A)
  (acc : C) :
  fold_left (fun a x => f a (g x)) l acc = fold_left f (map g l) acc.
Proof.
  revert acc. induction l as [| x l IH]; intros acc; [reflexivity |].
  cbn. apply IH.
Qed.

Lemma map_combine_seq (g : A -> B -> C) (l1 : list A) (l2 : list B)
  (dA : A) (dB : B) :
  length l2 = length l1 ->
  map (fun pd => g (fst pd) (snd pd)) (combine l1 l2)
  = map (fun i => g (nth i l1 dA) (nth i l2 dB)) (seq 0 (length l1)).
Proof.
  revert l2. induction l1 as [| a l1 IH]; intros [| b l2] Hlen;
    try discriminate Hlen; [reflexivity |].
  cbn [combine map length seq nth fst snd]. f_equal.
  rewrite <- seq_shift, map_map. apply IH.
  cbn in Hlen. lia.
Qed.
End FoldFacts.

(* ================================================================== *)
(** ** Properties of the member functions defined in the header *)

Section HeaderProperties.
Context {T : Type} `{ScalarType T}.

Lemma SFcompare_finite_refl (s : bool) (m : positive) (e : Z) :
  SFcompare (S754_finite s m e) (S754_finite s m e) = Some Eq.
Proof.
  simpl. rewrite Z.compare_refl, Pos.compare_cont_refl.
  destruct s; reflexivity.
Qed.

Lemma SFeqb_refl (f : spec_float) : is_nan f = false -> SFeqb f f = true.
Proof.
  unfold SFeqb. destruct f as [s | s | | s m e]; intros Hn.
  - reflexivity.
  - destruct s; reflexivity.
  - discriminate Hn.
  - rewrite SFcompare_finite_refl. reflexivity.
Qed.

(** C4. After SetStiffness(s) the stored stiffness is max(s, 0) (as
    doubles compare: -0.0 and 0.0 are equal, and a NaN counts as no
    value), it is never below zero, and a negative s is stored as 0.0.
    SetStiffness is a total function: nothing is raised. *)
Theorem SetStiffness_clamps (s : spec_float) (this : @KernelTransform2 T) :
  SFeqb (GetStiffness (SetStiffness s this)) (SFmax s dzero) = true
  /\ SFleb dzero (GetStiffness (SetStiffness s this)) = true
  /\ (SFltb s dzero = true -> GetStiffness (SetStiffness s this) = dzero).
Proof.
  unfold GetStiffness, SetStiffness; cbn [m_Stiffness].
  destruct s as [sg | sg | | sg m e].
  - repeat split; destruct sg; reflexivity.
  - repeat split; destruct sg; try reflexivity; discriminate.
  - repeat split.
  - destruct sg.
    + repeat split.
    + assert (Hlt : SFltb dzero (S754_finite false m e) = true) by reflexivity.
      rewrite Hlt. repeat split.
      * unfold SFmax. cbn [SFcompare dzero].
        apply SFeqb_refl. reflexivity.
      * discriminate.
Qed.

(** C5 (amended). SetStiffness clears all three validity flags, of L, of
    the inverse of L and of W, and leaves the landmarks and every cached
    matrix as they were. *)
Theorem SetStiffness_invalidates_all (s : spec_float)
  (this : @KernelTransform2 T) :
  let this' := SetStiffness s this in
  m_LMatrixComputed this' = false
  /\ m_LInverseComputed this' = false
  /\ m_WMatrixComputed this' = false
  /\ m_SourceLandmarks this' = m_SourceLandmarks this
  /\ m_TargetLandmarks this' = m_TargetLandmarks this
  /\ m_Displacements this' = m_Displacements this
  /\ m_LMatrix this' = m_LMatrix this
  /\ m_LMatrixInverse this' = m_LMatrixInverse this
  /\ m_KMatrix this' = m_KMatrix this
  /\ m_PMatrix this' = m_PMatrix this
  /\ m_YMatrix this' = m_YMatrix this
  /\ m_WMatrix this' = m_WMatrix this
  /\ m_DMatrix this' = m_DMatrix this
  /\ m_AMatrix this' = m_AMatrix this
  /\ m_BVector this' = m_BVector this.
Proof.
  cbv zeta. unfold SetStiffness. cbn. repeat split.
Qed.

Lemma wrap_unsigned_int_long (z : Z) :
  wrap_unsigned_int (wrap_unsigned_long z) = wrap_unsigned_int z.
Proof.
  unfold wrap_unsigned_int, wrap_unsigned_long.
  apply Z.mod_mod_divide. exists (2 ^ 32)%Z. reflexivity.
Qed.

Lemma GetNumberOfParameters_mod (NDimensions : nat)
  (this : @KernelTransform2 T) :
  GetNumberOfParameters NDimensions this
  = ((Z.of_nat (length (m_SourceLandmarks this)) * Z.of_nat NDimensions)
     mod 2 ^ 32)%Z.
Proof.
  unfold GetNumberOfParameters, GetNumberOfPoints, SpaceDimension.
  rewrite wrap_unsigned_int_long.
  unfold wrap_unsigned_int.
  rewrite Z.mul_mod by discriminate.
  fold (wrap_unsigned_int
          (wrap_unsigned_long (Z.of_nat (length (m_SourceLandmarks this))))).
  rewrite wrap_unsigned_int_long. unfold wrap_unsigned_int.
  rewrite <- Z.mul_mod by discriminate. reflexivity.
Qed.

(** C6 (amended). GetNumberOfParameters returns N * D reduced modulo
    2^32, the range of its unsigned int result; it is N * D whenever
    N * D is below 2^32. *)
Theorem GetNumberOfParameters_wraps (NDimensions : nat)
  (this : @KernelTransform2 T) :
  let N := Z.of_nat (length (m_SourceLandmarks this)) in
  let D := Z.of_nat NDimensions in
  GetNumberOfParameters NDimensions this = ((N * D) mod 2 ^ 32)%Z
  /\ ((N * D < 2 ^ 32)%Z -> GetNumberOfParameters NDimensions this = (N * D)%Z).
Proof.
  cbv zeta. split; [apply GetNumberOfParameters_mod |].
  intros Hlt. rewrite GetNumberOfParameters_mod. apply Z.mod_small. lia.
Qed.

(** C10. On the base class SetAlpha changes nothing, whatever the values
    and however often it is called, and GetAlpha returns -1.0 before and
    after. *)
Theorem SetAlpha_no_effect (alphas : list T) (this : @KernelTransform2 T) :
  let this' := fold_left (fun t a => SetAlpha a t) alphas this in
  this' = this
  /\ GetAlpha this = of_double dminus_one
  /\ GetAlpha this' = of_double dminus_one.
Proof.
  cbv zeta.
  assert (E : fold_left (fun t a => SetAlpha a t) alphas this = this).
  { induction alphas as [| a alphas IH]; [reflexivity | exact IH]. }
  rewrite E. repeat split.
Qed.
End HeaderProperties.

(* ================================================================== *)
(** ** Properties of the member functions declared in the header *)

Section KernelProperties.
Context {T : Type} `{ScalarLaws T} `{!ScalarAssoc T}.
Variable NDimensions : nat.
Variable ComputeG : list T -> list (list T).
Variable vnl_svd_inverse : list (list T) -> list (list T).

(** What ComputeWMatrix leaves behind on a normal return: one
    coefficient vector per source landmark and a translation of at most
    NDimensions components. *)
Lemma ComputeWMatrix_Done_shape (this0 this : @KernelTransform2 T) :
  ComputeWMatrix NDimensions ComputeG vnl_svd_inverse this0 = Done this ->
  length (m_DMatrix this) = length (m_SourceLandmarks this)
  /\ length (m_BVector this) <= NDimensions
  /\ m_WMatrixComputed this = true.
Proof.
  unfold ComputeWMatrix.
  destruct (negb _); [discriminate |].
  destruct (m_SourceLandmarks this0) as [| p ps] eqn:Esrc;
    intros Hdone; injection Hdone as <-.
  - cbn. rewrite Esrc. unfold vfill. rewrite repeat_length.
    repeat split. lia.
  - cbn [with_WMatrixComputed ReorganizeW with_DAB m_DMatrix
           m_SourceLandmarks m_BVector m_WMatrixComputed].
    rewrite length_reshape. repeat split.
    apply firstn_le_length.
Qed.

(** The contributions of the landmarks, by landmark index. *)
Lemma TransformPoint_indexed (this : @KernelTransform2 T) (x : list T) :
  length (m_DMatrix this) = length (m_SourceLandmarks this) ->
  TransformPoint NDimensions ComputeG this x
  = vsum_from (vadd (mat_vec (m_AMatrix this) x) (m_BVector this))
      (map (fun i =>
              vec_mat NDimensions (nth i (m_DMatrix this) [])
                (ComputeG (vsub x (nth i (m_SourceLandmarks this) []))))
           (seq 0 (length (m_SourceLandmarks this)))).
Proof.
  intros HD. unfold TransformPoint, ComputeDeformationContribution, vsum_from.
  rewrite (fold_left_map_step vadd
             (fun pd => vec_mat NDimensions (snd pd)
                          (ComputeG (vsub x (fst pd))))).
  f_equal.
  apply (map_combine_seq
           (fun p d => vec_mat NDimensions d (ComputeG (vsub x p)))
           (m_SourceLandmarks this) (m_DMatrix this) [] [] HD).
Qed.

(** In exact arithmetic the sum over the landmarks can be formed first
    and added to A x + b afterwards. *)
Lemma TransformPoint_sum (this : @KernelTransform2 T) (x : list T) :
  length (m_DMatrix this) = length (m_SourceLandmarks this) ->
  length (m_BVector this) <= NDimensions ->
  TransformPoint NDimensions ComputeG this x
  = vadd (vadd (mat_vec (m_AMatrix this) x) (m_BVector this))
         (vsum NDimensions
            (map (fun i =>
                    vec_mat NDimensions (nth i (m_DMatrix this) [])
                      (ComputeG (vsub x (nth i (m_SourceLandmarks this) []))))
                 (seq 0 (length (m_SourceLandmarks this))))).
Proof.
  intros HD Hb. rewrite (TransformPoint_indexed this x HD). unfold vsum_from.
  apply fold_left_vadd.
  pose proof (length_zipWith_r add
                (mat_vec (m_AMatrix this) x) (m_BVector this)).
  unfold vadd. lia.
Qed.

(** C1. Once ComputeWMatrix has returned, TransformPoint(x) is
    A x + b plus the sum, over all landmarks i, of the coefficient vector
    of landmark i times the kernel response to x - source[i], the terms
    being added landmark after landmark.  No law of arithmetic is used:
    the equation holds as it stands on float and double. *)
Theorem TransformPoint_closed_form (this0 this : @KernelTransform2 T)
  (x : list T) :
  ComputeWMatrix NDimensions ComputeG vnl_svd_inverse this0 = Done this ->
  TransformPoint NDimensions ComputeG this x
  = vsum_from (vadd (mat_vec (m_AMatrix this) x) (m_BVector this))
      (map (fun i =>
              vec_mat NDimensions (nth i (m_DMatrix this) [])
                (ComputeG (vsub x (nth i (m_SourceLandmarks this) []))))
           (seq 0 (length (m_SourceLandmarks this)))).
Proof.
  intros Hdone.
  destruct (ComputeWMatrix_Done_shape _ _ Hdone) as (HD & _ & _).
  apply TransformPoint_indexed. exact HD.
Qed.

Lemma ComputeWMatrix_empty (this0 : @KernelTransform2 T) :
  m_SourceLandmarks this0 = [] ->
  m_TargetLandmarks this0 = [] ->
  ComputeWMatrix NDimensions ComputeG vnl_svd_inverse this0
  = Done (with_WMatrixComputed
            (with_DAB [] (m_I NDimensions) (vfill NDimensions Zero) this0)).
Proof.
  intros Hsrc Htgt. unfold ComputeWMatrix. rewrite Hsrc, Htgt. reflexivity.
Qed.

Lemma TransformPoint_identity (this : @KernelTransform2 T) (x : list T) :
  m_SourceLandmarks this = [] ->
  m_AMatrix this = identity NDimensions ->
  m_BVector this = vfill NDimensions Zero ->
  length x = NDimensions ->
  TransformPoint NDimensions ComputeG this x = x.
Proof.
  intros Hsrc HA Hb Hx.
  unfold TransformPoint, ComputeDeformationContribution.
  rewrite Hsrc, HA, Hb. cbn [combine fold_left].
  rewrite <- Hx at 1. rewrite mat_vec_identity.
  apply vadd_zero_r. lia.
Qed.


(** After SetIdentity the transform is the identity. *)
Lemma SetIdentity_identity (this0 : @KernelTransform2 T) (x : list T) :
  length x = NDimensions ->
  exists this,
    ComputeWMatrix NDimensions ComputeG vnl_svd_inverse (SetIdentity this0)
    = Done this
    /\ TransformPoint NDimensions ComputeG this x = x.
Proof.
  intros Hx. eexists.
  split; [apply ComputeWMatrix_empty; reflexivity |].
  apply TransformPoint_identity; try assumption; reflexivity.
Qed.


(** C3. A parameter vector of length N * D is accepted by
    SetParameters, and GetParameters then returns that vector. *)
Theorem GetParameters_SetParameters (v : list T)
  (this : @KernelTransform2 T) :
  length v = length (m_SourceLandmarks this) * NDimensions ->
  exists this',
    SetParameters NDimensions v this = Done this'
    /\ GetParameters this' = v.
Proof.
  intros Hlen. unfold SetParameters.
  rewrite (proj2 (Nat.eqb_eq _ _) Hlen).
  eexists. split; [reflexivity |].
  unfold GetParameters.
  cbn [invalidate with_SourceLandmarks m_SourceLandmarks].
  apply concat_reshape. exact Hlen.
Qed.

Lemma kernel_rows_uniform (Hk : square_kernel NDimensions ComputeG) (x : list T)
  (points : list (list T)) (r : nat) :
  r < NDimensions ->
  Forall (fun y => length y = NDimensions)
         (map (fun B => nth r B [])
              (map (fun p => ComputeG (vsub x p)) points)).
Proof.
  intros Hr. rewrite map_map. apply Forall_forall.
  intros y Hy. apply in_map_iff in Hy. destruct Hy as (p & <- & _).
  destruct (Hk (vsub x p)) as [Hlen Hrows].
  rewrite Forall_forall in Hrows. apply Hrows.
  apply nth_In. rewrite Hlen. exact Hr.
Qed.

(** C7. The Jacobian at x has NDimensions rows and N * NDimensions
    columns, its column block i is the kernel response to x - source[i],
    and the nonzero Jacobian indices are all of 0 .. N * NDimensions - 1. *)
Theorem GetJacobian_dense (Hk : square_kernel NDimensions ComputeG)
  (this : @KernelTransform2 T) (x : list T) :
  let N := length (m_SourceLandmarks this) in
  let J := fst (GetJacobian NDimensions ComputeG this x) in
  let nzji := snd (GetJacobian NDimensions ComputeG this x) in
  length J = NDimensions
  /\ Forall (fun row => length row = N * NDimensions) J
  /\ (forall i, i < N ->
                column_block NDimensions i J
                = ComputeG (vsub x (nth i (m_SourceLandmarks this) [])))
  /\ nzji = seq 0 (N * NDimensions)
  /\ (forall k, In k nzji <-> k < N * NDimensions).
Proof.
  cbv zeta. unfold GetJacobian. cbn [fst snd].
  set (src := m_SourceLandmarks this).
  repeat split.
  - unfold block_row. rewrite length_map, length_seq. reflexivity.
  - unfold block_row. apply Forall_forall. intros row Hrow.
    apply in_map_iff in Hrow. destruct Hrow as (r & <- & Hr).
    apply in_seq in Hr.
    rewrite (length_concat_uniform NDimensions).
    + rewrite !length_map. reflexivity.
    + apply kernel_rows_uniform; [exact Hk | lia].
  - intros i Hi. unfold column_block, block_row. rewrite map_map.
    destruct (Hk (vsub x (nth i src []))) as [Hlen _].
    transitivity
      (map (fun r => nth r (ComputeG (vsub x (nth i src []))) [])
           (seq 0 NDimensions)).
    + apply map_ext_in. intros r Hr. apply in_seq in Hr.
      rewrite firstn_skipn_concat_uniform
        by (apply kernel_rows_uniform; [exact Hk | lia]).
      rewrite map_map.
      rewrite (nth_indep _ []
                 ((fun p => nth r (ComputeG (vsub x p)) []) []))
        by (rewrite length_map; exact Hi).
      apply (map_nth (fun p => nth r (ComputeG (vsub x p)) [])).
    + rewrite <- Hlen. apply map_nth_seq.
  - intros Hin. apply in_seq in Hin. lia.
  - intros Hlt. apply in_seq. lia.
Qed.
End KernelProperties.

(* ================================================================== *)
(** ** Evaluations on the sample objects *)

(** Witness of C4: -2.0 is stored as 0.0. *)
Lemma SetStiffness_clamps_witness :
  SFltb dminus_two dzero = true
  /\ GetStiffness (SetStiffness dminus_two fitted_empty) = dzero.
Proof.
  split; [reflexivity |].
  apply (proj2 (proj2 (SetStiffness_clamps dminus_two fitted_empty))).
  reflexivity.
Defined.

(** C5 as stated fails: on an object whose L matrix is valid, changing
    only the stiffness leaves the landmarks alone and still marks L as
    not computed. *)
Lemma SetStiffness_keeps_L_counterexample :
  m_LMatrixComputed two_landmarks = true
  /\ m_SourceLandmarks (SetStiffness done_ two_landmarks)
     = m_SourceLandmarks two_landmarks
  /\ m_TargetLandmarks (SetStiffness done_ two_landmarks)
     = m_TargetLandmarks two_landmarks
  /\ m_LMatrixComputed (SetStiffness done_ two_landmarks) = false.
Proof.
  repeat split.
Qed.

Lemma length_many_landmarks :
  Z.of_nat (length many_landmarks) = 2147483648%Z.
Proof.
  unfold many_landmarks. rewrite repeat_length. apply Z2Nat.id. discriminate.
Qed.

(** C6 as stated fails: with 2^31 landmarks in two dimensions N * D is
    2^32 and GetNumberOfParameters returns 0. *)
Lemma GetNumberOfParameters_counterexample :
  (Z.of_nat (length (m_SourceLandmarks huge)) * Z.of_nat 2 = 4294967296)%Z
  /\ GetNumberOfParameters 2 huge = 0%Z.
Proof.
  rewrite GetNumberOfParameters_mod.
  change (m_SourceLandmarks huge) with many_landmarks.
  rewrite length_many_landmarks. split; reflexivity.
Qed.

(** Witness of C6: three landmarks in two dimensions give 6. *)
Lemma GetNumberOfParameters_wraps_witness :
  (Z.of_nat (length (m_SourceLandmarks three_landmarks)) * Z.of_nat 2
   < 2 ^ 32)%Z
  /\ GetNumberOfParameters 2 three_landmarks = 6%Z.
Proof.
  split; [reflexivity |].
  apply (proj2 (GetNumberOfParameters_wraps 2 three_landmarks)).
  reflexivity.
Defined.

(** The scale-by-two fit sends (1,1) to (2,2). *)
Example TransformPoint_scale_by_two :
  TransformPoint 2 sample_kernel scale_by_two [1; 1]%Z = [2; 2]%Z.
Proof. reflexivity. Qed.

(** -1.0 is what GetAlpha returns for TScalarType = double. *)
Example GetAlpha_double (this : @KernelTransform2 spec_float) :
  @GetAlpha spec_float double_ScalarType this = dminus_one.
Proof. reflexivity. Qed.

(** On the two-landmark object, after ComputeWMatrix, (1,1) goes to
    (1,-1). *)
Example TransformPoint_sample_fitted :
  TransformPoint 2 sample_kernel sample_fitted [1; 1]%Z = [1; -1]%Z.
Proof. reflexivity. Qed.

(** Witness of C1, at TScalarType = double: weights 0.2 and 0.3, b = 0.1. *)
Lemma TransformPoint_closed_form_witness :
  @ComputeWMatrix spec_float double_ScalarType 1 unit_kernel (fun L => L)
    double_object = Done double_fitted
  /\ @TransformPoint spec_float double_ScalarType 1 unit_kernel
       double_fitted [done_]
     = @vsum_from spec_float double_ScalarType
         (@vadd spec_float double_ScalarType
            (@mat_vec spec_float double_ScalarType
               (m_AMatrix double_fitted) [done_])
            (m_BVector double_fitted))
         (map (fun i =>
                 @vec_mat spec_float double_ScalarType 1
                   (nth i (m_DMatrix double_fitted) [])
                   (unit_kernel
                      (@vsub spec_float double_ScalarType [done_]
                         (nth i (m_SourceLandmarks double_fitted) []))))
              (seq 0 (length (m_SourceLandmarks double_fitted)))).
Proof.
  split; [reflexivity |].
  apply (@TransformPoint_closed_form spec_float double_ScalarType 1
           unit_kernel (fun L => L) double_object double_fitted [done_]).
  reflexivity.
Defined.

(** On that object the fit is D = 0.2, 0.3, A = 0.0, b = 0.1, and 1.0 is
    sent to (0.1 + 0.2) + 0.3 = 0.6000000000000001. *)
Example TransformPoint_double_fitted :
  m_DMatrix double_fitted = [[d0_2]; [d0_3]]
  /\ m_AMatrix double_fitted = [[dzero]]
  /\ m_BVector double_fitted = [d0_1]
  /\ @TransformPoint spec_float double_ScalarType 1 unit_kernel
       double_fitted [done_]
     = [S754_finite false 5404319552844596 (-53)].
Proof. vm_compute. repeat split. Qed.

(** The same equation over the integers. *)
Example TransformPoint_closed_form_integers :
  TransformPoint 2 sample_kernel sample_fitted [1; 1]%Z
  = vsum_from (vadd (mat_vec (m_AMatrix sample_fitted) [1; 1]%Z)
                    (m_BVector sample_fitted))
      (map (fun i =>
              vec_mat 2 (nth i (m_DMatrix sample_fitted) [])
                (sample_kernel
                   (vsub [1; 1]%Z
                         (nth i (m_SourceLandmarks sample_fitted) []))))
           (seq 0 (length (m_SourceLandmarks sample_fitted)))).
Proof. reflexivity. Qed.


(** Witness of C3: four parameters for two landmarks in the plane. *)
Lemma GetParameters_SetParameters_witness :
  length [5; 6; 7; 8]%Z = length (m_SourceLandmarks sample_object) * 2
  /\ exists this',
       SetParameters 2 [5; 6; 7; 8]%Z sample_object = Done this'
       /\ GetParameters this' = [5; 6; 7; 8]%Z.
Proof.
  split; [reflexivity |].
  apply (GetParameters_SetParameters 2 [5; 6; 7; 8]%Z sample_object).
  reflexivity.
Defined.

Lemma sample_kernel_square : square_kernel 2 sample_kernel.
Proof.
  intros v. split; [reflexivity |].
  repeat constructor.
Defined.

(** Witness of C7: the second column block of the Jacobian at (1,1). *)
Lemma GetJacobian_dense_witness :
  square_kernel 2 sample_kernel
  /\ column_block 2 1 (fst (GetJacobian 2 sample_kernel sample_fitted [1; 1]%Z))
     = sample_kernel (vsub [1; 1]%Z [1; 0]%Z).
Proof.
  split; [exact sample_kernel_square |].
  destruct (GetJacobian_dense 2 sample_kernel sample_kernel_square
              sample_fitted [1; 1]%Z)
    as (_ & _ & Hblock & _).
  apply (Hblock 1). cbn. lia.
Defined.


(* ================================================================== *)
(** ** Further properties of the setters defined in the header *)

Section SetterProperties.
Context {T : Type}.

(** X1. Passing the stored stiffness back to SetStiffness changes
    nothing: an object that SetStiffness has produced is a fixed point of
    SetStiffness(GetStiffness()). *)
Theorem SetStiffness_of_stored (s : spec_float) (this : @KernelTransform2 T) :
  SetStiffness (GetStiffness (SetStiffness s this)) (SetStiffness s this)
  = SetStiffness s this.
Proof.
  unfold GetStiffness, SetStiffness.
  cbn [m_SourceLandmarks m_TargetLandmarks m_Stiffness m_Displacements
       m_LMatrix m_LMatrixInverse m_KMatrix m_PMatrix m_YMatrix m_WMatrix
       m_DMatrix m_AMatrix m_BVector m_PoissonRatio].
  destruct (SFltb dzero s) eqn:E.
  - rewrite E. reflexivity.
  - reflexivity.
Qed.

(** X2. The clamping of SetStiffness keeps the order: if s1 <= s2 as
    doubles, the stiffness stored for s1 is <= the one stored for s2. *)
Theorem SetStiffness_monotone (s1 s2 : spec_float)
  (this1 this2 : @KernelTransform2 T) :
  SFleb s1 s2 = true ->
  SFleb (GetStiffness (SetStiffness s1 this1))
        (GetStiffness (SetStiffness s2 this2)) = true.
Proof.
  unfold GetStiffness, SetStiffness; cbn [m_Stiffness].
  intros Hle.
  destruct s1 as [b1 | b1 | | b1 m1 e1], s2 as [b2 | b2 | | b2 m2 e2];
    try destruct b1; try destruct b2;
    try discriminate Hle; try reflexivity.
  change (SFltb dzero (S754_finite false m1 e1)) with true.
  change (SFltb dzero (S754_finite false m2 e2)) with true.
  exact Hle.
Qed.

Lemma calls_app (ms1 ms2 : list (Mutator T)) (this : @KernelTransform2 T) :
  calls (ms1 ++ ms2) this = calls ms2 (calls ms1 this).
Proof.
  unfold calls. apply fold_left_app.
Qed.

(** X3. No sequence of SetStiffness, SetAlpha and SetPoissonRatio calls
    touches the landmarks or the coefficients A, b and D of the fit, so
    GetNumberOfParameters is the same before and after. *)
Theorem calls_keep_fit (ms : list (Mutator T)) (this : @KernelTransform2 T) :
  m_SourceLandmarks (calls ms this) = m_SourceLandmarks this
  /\ m_TargetLandmarks (calls ms this) = m_TargetLandmarks this
  /\ m_DMatrix (calls ms this) = m_DMatrix this
  /\ m_AMatrix (calls ms this) = m_AMatrix this
  /\ m_BVector (calls ms this) = m_BVector this
  /\ forall NDimensions,
       GetNumberOfParameters NDimensions (calls ms this)
       = GetNumberOfParameters NDimensions this.
Proof.
  revert this. induction ms as [| m ms IH]; intros this.
  - repeat split.
  - change (calls (m :: ms) this) with (calls ms (call m this)).
    destruct (IH (call m this)) as (Hs & Ht & HD & HA & Hb & Hn).
    rewrite Hs, Ht, HD, HA, Hb.
    assert (Hsrc : m_SourceLandmarks (call m this) = m_SourceLandmarks this)
      by (destruct m; reflexivity).
    repeat split; try (destruct m; reflexivity).
    intros NDimensions. rewrite Hn.
    unfold GetNumberOfParameters. rewrite Hsrc. reflexivity.
Qed.

(** X4. The setters of the header can only invalidate: after a sequence
    of calls each of the three flags is true exactly when it was true
    before and the sequence has no SetStiffness call. *)
Theorem calls_flags (ms : list (Mutator T)) (this : @KernelTransform2 T) :
  let untouched := negb (existsb is_SetStiffness ms) in
  m_WMatrixComputed (calls ms this) = m_WMatrixComputed this && untouched
  /\ m_LMatrixComputed (calls ms this) = m_LMatrixComputed this && untouched
  /\ m_LInverseComputed (calls ms this)
     = m_LInverseComputed this && untouched.
Proof.
  cbv zeta. revert this. induction ms as [| m ms IH]; intros this.
  - cbn. rewrite !andb_true_r. repeat split.
  - change (calls (m :: ms) this) with (calls ms (call m this)).
    destruct (IH (call m this)) as (HW & HL & HLi).
    rewrite HW, HL, HLi. cbn [existsb].
    destruct m; cbn [call is_SetStiffness orb negb];
      unfold SetStiffness, SetAlpha, SetPoissonRatio;
      cbn [m_WMatrixComputed m_LMatrixComputed m_LInverseComputed];
      rewrite ?andb_false_r; repeat split.
Qed.

(** X5. GetPoissonRatio returns the value of the last SetPoissonRatio
    call, as it was given, whatever SetStiffness and SetAlpha calls have
    come after it. *)
Theorem GetPoissonRatio_last_set (Nu : T) (ms : list (Mutator T))
  (this : @KernelTransform2 T) :
  existsb is_SetPoissonRatio ms = false ->
  GetPoissonRatio (calls ms (SetPoissonRatio Nu this)) = Nu.
Proof.
  revert this. induction ms as [| m ms IH]; intros this Hno.
  - reflexivity.
  - cbn [existsb] in Hno. apply orb_false_iff in Hno.
    destruct Hno as [Hm Hms].
    change (calls (m :: ms) (SetPoissonRatio Nu this))
      with (calls ms (call m (SetPoissonRatio Nu this))).
    destruct m as [s | a | nu]; cbn [call]; try discriminate Hm.
    + replace (SetStiffness s (SetPoissonRatio Nu this))
        with (SetPoissonRatio Nu (SetStiffness s this)) by reflexivity.
      apply IH. exact Hms.
    + apply IH. exact Hms.
Qed.

(** X6. One more source landmark adds SpaceDimension to
    GetNumberOfParameters, modulo 2^32; without source landmarks it is 0. *)
Theorem GetNumberOfParameters_add_landmark (NDimensions : nat)
  (p : list T) (this : @KernelTransform2 T) :
  GetNumberOfParameters NDimensions
    (with_SourceLandmarks (p :: m_SourceLandmarks this) this)
  = ((GetNumberOfParameters NDimensions this + SpaceDimension NDimensions)
     mod 2 ^ 32)%Z
  /\ GetNumberOfParameters NDimensions (with_SourceLandmarks [] this) = 0%Z.
Proof.
  split.
  - rewrite !GetNumberOfParameters_mod.
    cbn [with_SourceLandmarks m_SourceLandmarks length].
    unfold SpaceDimension.
    rewrite Z.add_mod_idemp_l by discriminate.
    f_equal. lia.
  - rewrite GetNumberOfParameters_mod. reflexivity.
Qed.
End SetterProperties.

(* ================================================================== *)
(** ** Properties of the test program: file names *)

Section FileNames.
Import GPUCastImageFilterTest.
Local Open Scope string_scope.

Lemma append_assoc (a b c : string) : (a ++ b) ++ c = a ++ (b ++ c).
Proof.
  induction a as [| x a IH]; [reflexivity |].
  cbn. rewrite IH. reflexivity.
Qed.

Lemma append_inv_head (a b c : string) : a ++ b = a ++ c -> b = c.
Proof.
  induction a as [| x a IH]; intros Heq; [exact Heq |].
  cbn in Heq. injection Heq as Heq. apply IH. exact Heq.
Qed.

Lemma length_append (a b : string) :
  String.length (a ++ b) = String.length a + String.length b.
Proof.
  induction a as [| x a IH]; [reflexivity |].
  cbn. rewrite IH. reflexivity.
Qed.

Lemma substring_0_all (s : string) (n : nat) :
  String.length s <= n -> substring 0 n s = s.
Proof.
  revert n. induction s as [| x s IH]; intros n Hle.
  - destruct n; reflexivity.
  - destruct n as [| n]; [cbn in Hle; lia |].
    cbn. rewrite IH by (cbn in Hle; lia). reflexivity.
Qed.

Lemma substring_0_append (p t : string) (n : nat) :
  substring 0 (String.length p + n) (p ++ t) = p ++ substring 0 n t.
Proof.
  induction p as [| x p IH]; [reflexivity |].
  cbn. rewrite IH. reflexivity.
Qed.

Lemma substring_0_append_short (p t : string) (n : nat) :
  n <= String.length p -> substring 0 n (p ++ t) = substring 0 n p.
Proof.
  revert n. induction p as [| x p IH]; intros n Hle.
  - cbn in Hle. replace n with 0 by lia. destruct t; reflexivity.
  - destruct n as [| n]; [reflexivity |].
    cbn. rewrite IH by (cbn in Hle; lia). reflexivity.
Qed.

Lemma last_index_None (c : ascii) (s : string) :
  last_index c s = None <-> ~ occurs c s.
Proof.
  unfold occurs. induction s as [| x s IH]; cbn.
  - split; [intros _ [] | reflexivity].
  - destruct (last_index c s) as [i |].
    + split; [discriminate |].
      intros Hno. exfalso. apply Hno. right.
      destruct (in_dec ascii_dec c (list_ascii_of_string s)) as [Hin | Hnin];
        [exact Hin |].
      apply IH in Hnin. discriminate Hnin.
    + destruct (Ascii.eqb_spec x c) as [-> | Hne].
      * split; [discriminate |]. intros Hno. exfalso. apply Hno. left.
        reflexivity.
      * split; [| reflexivity].
        intros _ [Heq | Hin]; [exact (Hne Heq) |].
        apply (proj1 IH); [reflexivity | exact Hin].
Qed.

Lemma last_index_Some (c : ascii) (s : string) (i : nat) :
  last_index c s = Some i ->
  i < String.length s
  /\ exists ext, s = substring 0 i s ++ String c ext /\ last_index c ext = None.
Proof.
  revert i. induction s as [| x s IH]; intros i Hi; [discriminate Hi |].
  cbn in Hi. destruct (last_index c s) as [j |] eqn:Ej.
  - injection Hi as <-.
    destruct (IH j eq_refl) as (Hlt & ext & Hs & Hext).
    split; [cbn; lia |].
    exists ext. split; [| exact Hext].
    cbn. rewrite <- Hs. reflexivity.
  - destruct (Ascii.eqb_spec x c) as [-> | Hne]; [| discriminate Hi].
    injection Hi as <-.
    split; [cbn; lia |].
    exists s. split; [reflexivity | exact Ej].
Qed.

Lemma last_index_append (c : ascii) (p t : string) :
  last_index c (p ++ t)
  = match last_index c t with
    | Some i => Some (String.length p + i)
    | None => last_index c p
    end.
Proof.
  induction p as [| x p IH].
  - cbn. destruct (last_index c t); reflexivity.
  - cbn. rewrite IH. destruct (last_index c t); reflexivity.
Qed.

Lemma substr0_index (s : string) (i : nat) :
  i <= String.length s -> substr0 s (Z.of_nat i) = substring 0 i s.
Proof.
  intros Hle. unfold substr0.
  rewrite Z.min_l by lia. rewrite Nat2Z.id. reflexivity.
Qed.

Lemma baseName_Some (s : string) (i : nat) :
  last_index "." s = Some i -> baseName s = substring 0 i s.
Proof.
  intros Hi. unfold baseName, rfind. rewrite Hi.
  apply substr0_index.
  destruct (last_index_Some _ _ _ Hi) as [Hlt _]. lia.
Qed.

(** X7. When the input file name has a '.', baseName is the name up to
    its last '.': the name is baseName, a '.', and an extension without
    '.'. *)
Theorem baseName_splits_at_last_dot (inputFileName : string) :
  occurs "."%char inputFileName ->
  exists ext,
    inputFileName = baseName inputFileName ++ String "." ext
    /\ ~ occurs "."%char ext.
Proof.
  intros Hdot.
  destruct (last_index "." inputFileName) as [i |] eqn:Ei.
  - destruct (last_index_Some _ _ _ Ei) as (_ & ext & Hs & Hext).
    exists ext. rewrite (baseName_Some _ _ Ei).
    split; [exact Hs |]. apply last_index_None. exact Hext.
  - apply last_index_None in Ei. contradiction.
Qed.

(** X8. When the input file name has no '.', rfind gives npos and
    baseName is the whole name (a string is shorter than npos). *)
Theorem baseName_without_dot (inputFileName : string) :
  ~ occurs "."%char inputFileName ->
  (Z.of_nat (String.length inputFileName) <= npos)%Z ->
  rfind inputFileName "." = npos /\ baseName inputFileName = inputFileName.
Proof.
  intros Hno Hlen. apply last_index_None in Hno.
  unfold baseName, rfind. rewrite Hno. split; [reflexivity |].
  unfold substr0. rewrite Z.min_r by exact Hlen.
  rewrite Nat2Z.id. apply substring_0_all. lia.
Qed.

(** X9. baseName only cuts the extension: when the part [file] of a
    path [directory ++ file] has a '.', the directory part is kept, and
    so it reappears behind outputDirectory in the output file names. *)
Theorem baseName_keeps_directory (directory file : string) :
  occurs "."%char file ->
  baseName (directory ++ file) = directory ++ baseName file.
Proof.
  intros Hdot.
  destruct (last_index "." file) as [i |] eqn:Ei.
  - rewrite (baseName_Some file i Ei).
    rewrite (baseName_Some (directory ++ file) (String.length directory + i)).
    + apply substring_0_append.
    + rewrite last_index_append, Ei. reflexivity.
  - apply last_index_None in Ei. contradiction.
Qed.

(** X10. When the file part has no '.' but the directory part has one
    (as in "../data/image"), the name is cut at the '.' of the directory:
    baseName of the path is baseName of the directory part. *)
Theorem baseName_dot_in_directory (directory file : string) :
  ~ occurs "."%char file ->
  occurs "."%char directory ->
  baseName (directory ++ file) = baseName directory.
Proof.
  intros Hno Hdot. apply last_index_None in Hno.
  destruct (last_index "." directory) as [i |] eqn:Ei.
  - rewrite (baseName_Some directory i Ei).
    rewrite (baseName_Some (directory ++ file) i)
      by (rewrite last_index_append, Hno; exact Ei).
    apply substring_0_append_short.
    destruct (last_index_Some _ _ _ Ei) as [Hlt _]. lia.
  - apply last_index_None in Ei. contradiction.
Qed.

(** X11. The CPU result and the GPU result are never written to the same
    file: the two output file names differ for every input file name and
    output directory, and have the same length. *)
Theorem output_names_differ (inputFileName outputDirectory : string) :
  outputFileNameCPU inputFileName outputDirectory
  <> outputFileNameGPU inputFileName outputDirectory
  /\ String.length (outputFileNameCPU inputFileName outputDirectory)
     = String.length (outputFileNameGPU inputFileName outputDirectory).
Proof.
  unfold outputFileNameCPU, outputFileNameGPU. split.
  - intros Heq. apply append_inv_head in Heq. discriminate Heq.
  - rewrite !length_append. reflexivity.
Qed.
End FileNames.

(* ================================================================== *)
(** ** Properties of the test program: the error measure and main *)

Section ErrorMeasure.
Import GPUCastImageFilterTest.

Lemma SFsub_self (x : spec_float) :
  SFsub 53 1024 x x = dzero \/ SFsub 53 1024 x x = S754_nan.
Proof.
  destruct x as [s | s | | s m e].
  - left. destruct s; reflexivity.
  - right. destruct s; reflexivity.
  - right. reflexivity.
  - left. unfold SFsub. rewrite Z.sub_diag. reflexivity.
Qed.

Lemma square_step (acc c : spec_float) :
  acc = dzero \/ acc = S754_nan ->
  let err := SFsub 53 1024 (static_cast_double c) (static_cast_double c) in
  SFadd 53 1024 acc (SFmul 53 1024 err err) = dzero
  \/ SFadd 53 1024 acc (SFmul 53 1024 err err) = S754_nan.
Proof.
  cbv zeta. intros Hacc.
  destruct (SFsub_self (static_cast_double c)) as [-> | ->];
    destruct Hacc as [-> | ->]; cbn; auto.
Qed.

Lemma sum_of_squares_equal (pixels : list spec_float) (acc : spec_float) :
  acc = dzero \/ acc = S754_nan ->
  exists sum,
    sum_of_squares pixels pixels acc = Some sum
    /\ (sum = dzero \/ sum = S754_nan).
Proof.
  revert acc. induction pixels as [| c pixels IH]; intros acc Hacc.
  - exists acc. split; [reflexivity | exact Hacc].
  - cbn [sum_of_squares]. apply IH. apply square_step. exact Hacc.
Qed.

(** A sum that is 0.0 or NaN passes the check, whatever the number of
    pixels it is divided by. *)
Lemma check_zero_or_nan (sum n : spec_float) :
  sum = dzero \/ sum = S754_nan ->
  SFltb epsilon (SFsqrt 53 1024 (SFdiv 53 1024 sum n)) = false.
Proof.
  intros [-> | ->].
  - destruct n as [s | s | | s m e]; try destruct s; reflexivity.
  - reflexivity.
Qed.

Lemma sum_of_squares_nan_acc (cit git : list spec_float) :
  length cit <= length git ->
  sum_of_squares cit git S754_nan = Some S754_nan.
Proof.
  revert git. induction cit as [| c cit IH]; intros git Hle; [reflexivity |].
  destruct git as [| g git]; [cbn in Hle; lia |].
  cbn [sum_of_squares]. cbn [SFadd]. apply IH. cbn in Hle. lia.
Qed.

Lemma SFsub_nan (x y : spec_float) :
  is_nan x = true \/ is_nan y = true -> SFsub 53 1024 x y = S754_nan.
Proof.
  intros [Hx | Hy].
  - destruct x; try discriminate Hx. reflexivity.
  - destruct y; try discriminate Hy. destruct x; reflexivity.
Qed.

Lemma static_cast_double_nan (p : spec_float) :
  is_nan p = true -> is_nan (static_cast_double p) = true.
Proof.
  destruct p; intros Hp; try discriminate Hp. reflexivity.
Qed.

Lemma SFadd_nan_r (x : spec_float) : SFadd 53 1024 x S754_nan = S754_nan.
Proof.
  destruct x; reflexivity.
Qed.

Lemma sum_of_squares_nan_pixel (cit git : list spec_float) (i : nat)
  (acc : spec_float) :
  i < length cit ->
  length cit <= length git ->
  is_nan (nth i cit dzero) = true \/ is_nan (nth i git dzero) = true ->
  sum_of_squares cit git acc = Some S754_nan.
Proof.
  revert git i acc. induction cit as [| c cit IH]; intros git i acc Hi Hle Hnan;
    [cbn in Hi; lia |].
  destruct git as [| g git]; [cbn in Hle; lia |].
  cbn [sum_of_squares]. cbn in Hi, Hle.
  destruct i as [| i].
  - cbn [nth] in Hnan.
    rewrite SFsub_nan
      by (destruct Hnan as [Hc | Hg];
          [left | right]; apply static_cast_double_nan; assumption).
    cbn [SFmul]. rewrite SFadd_nan_r.
    apply sum_of_squares_nan_acc. lia.
  - cbn [nth] in Hnan. apply (IH git i); [lia | lia | exact Hnan].
Qed.

Lemma sum_of_squares_None (cit git : list spec_float) (acc : spec_float) :
  sum_of_squares cit git acc = None <-> length git < length cit.
Proof.
  revert git acc. induction cit as [| c cit IH]; intros git acc.
  - cbn. split; [discriminate | lia].
  - destruct git as [| g git].
    + cbn. split; [lia | reflexivity].
    + cbn [sum_of_squares length]. rewrite IH. lia.
Qed.

Lemma sum_of_squares_extra (cit git extra : list spec_float)
  (acc : spec_float) :
  length cit <= length git ->
  sum_of_squares cit (git ++ extra) acc = sum_of_squares cit git acc.
Proof.
  revert git acc. induction cit as [| c cit IH]; intros git acc Hle;
    [reflexivity |].
  destruct git as [| g git]; [cbn in Hle; lia |].
  cbn [sum_of_squares app]. apply IH. cbn in Hle. lia.
Qed.

(** X12. The loop is bounded by the CPU image alone: the read through
    git runs behind the GPU image exactly when that image has fewer
    pixels, and pixels of the GPU image behind the size of the CPU image
    are never compared. *)
Theorem rmse_reads_gpu (cpu gpu extra : list spec_float) :
  (rmse cpu gpu = None <-> length gpu < length cpu)
  /\ (length cpu <= length gpu -> rmse cpu (gpu ++ extra) = rmse cpu gpu).
Proof.
  unfold rmse. split.
  - rewrite <- (sum_of_squares_None cpu gpu dzero).
    destruct (sum_of_squares cpu gpu dzero); split; congruence.
  - intros Hle. rewrite sum_of_squares_extra by exact Hle. reflexivity.
Qed.

(** The GPU loop runs to its end exactly when every Update and every
    GPUExplicitSync of its runs returns. *)
Lemma gpu_runs_None (w : World) (inputFileName : string) (i n : nat) :
  gpu_runs w inputFileName i n = None
  <-> forallb (fun i => gpuFilter_Update w inputFileName i
                        && GPUExplicitSync w inputFileName i)
              (seq i n) = true.
Proof.
  revert i. induction n as [| n IH]; intros i.
  - cbn. split; reflexivity.
  - cbn [gpu_runs seq forallb].
    destruct (gpuFilter_Update w inputFileName i);
      [| cbn; split; discriminate].
    destruct (GPUExplicitSync w inputFileName i);
      [| cbn; split; discriminate].
    cbn [negb andb]. apply IH.
Qed.


(** With three or more arguments and no failing call, main goes on to
    the comparison of the two images. *)
Lemma main_when_calls_return (w : World) (prog inputFileName outputDirectory
  : string) (rest : list string) :
  all_calls_return w inputFileName outputDirectory = true ->
  main w (prog :: inputFileName :: outputDirectory :: rest)
  = match rmse (filter_GetOutput w inputFileName)
               (gpuFilter_GetOutput w inputFileName) with
    | Some r =>
        if SFltb epsilon r then Returned EXIT_FAILURE
        else Returned EXIT_SUCCESS
    | None => UndefinedBehaviour
    end.
Proof.
  unfold all_calls_return. intros Hall.
  apply andb_true_iff in Hall. destruct Hall as [Hall HgpuWriter].
  apply andb_true_iff in Hall. destruct Hall as [Hall Hruns].
  apply andb_true_iff in Hall. destruct Hall as [Hall Hnew].
  apply andb_true_iff in Hall. destruct Hall as [Hall Hwriter].
  apply andb_true_iff in Hall. destruct Hall as [Hall Hfilter].
  apply andb_true_iff in Hall. destruct Hall as [Hgpu Hreader].
  apply gpu_runs_None in Hruns.
  unfold main. cbn [length nth_error].
  replace (Z.of_nat (S (S (S (length rest)))) <? 2)%Z with false
    by (symmetry; apply Z.ltb_ge; lia).
  rewrite Hgpu, Hreader, Hfilter, Hwriter, Hnew, Hruns, HgpuWriter.
  reflexivity.
Qed.

(** X13. When no call fails and the GPU image equals the CPU image pixel
    for pixel, main returns EXIT_SUCCESS, whatever the pixel values and
    the number of pixels. *)
Theorem main_equal_images (w : World)
  (prog inputFileName outputDirectory : string) (rest : list string) :
  all_calls_return w inputFileName outputDirectory = true ->
  gpuFilter_GetOutput w inputFileName = filter_GetOutput w inputFileName ->
  main w (prog :: inputFileName :: outputDirectory :: rest)
  = Returned EXIT_SUCCESS.
Proof.
  intros Hall Heq. rewrite main_when_calls_return by exact Hall.
  rewrite Heq. unfold rmse.
  destruct (sum_of_squares_equal (filter_GetOutput w inputFileName) dzero)
    as (sum & -> & Hsum); [left; reflexivity |].
  rewrite check_zero_or_nan by exact Hsum. reflexivity.
Qed.

(** X14. A NaN among the compared pixels, in either image, makes rmse
    NaN, and since NaN > epsilon is false main returns EXIT_SUCCESS. *)
Theorem main_nan_pixel (w : World)
  (prog inputFileName outputDirectory : string) (rest : list string)
  (i : nat) :
  let cpu := filter_GetOutput w inputFileName in
  let gpu := gpuFilter_GetOutput w inputFileName in
  all_calls_return w inputFileName outputDirectory = true ->
  i < length cpu ->
  length cpu <= length gpu ->
  is_nan (nth i cpu dzero) = true \/ is_nan (nth i gpu dzero) = true ->
  rmse cpu gpu = Some S754_nan
  /\ main w (prog :: inputFileName :: outputDirectory :: rest)
     = Returned EXIT_SUCCESS.
Proof.
  cbv zeta. intros Hall Hi Hle Hnan.
  assert (Hr : rmse (filter_GetOutput w inputFileName)
                    (gpuFilter_GetOutput w inputFileName) = Some S754_nan).
  { unfold rmse.
    rewrite (sum_of_squares_nan_pixel _ _ i dzero Hi Hle Hnan).
    reflexivity. }
  split; [exact Hr |].
  rewrite main_when_calls_return by exact Hall. rewrite Hr. reflexivity.
Qed.

(** X15. For a CPU image without pixels the sum 0.0 is divided by 0:
    rmse is NaN and main returns EXIT_SUCCESS, whatever the GPU image. *)
Theorem main_empty_image (w : World)
  (prog inputFileName outputDirectory : string) (rest : list string) :
  all_calls_return w inputFileName outputDirectory = true ->
  filter_GetOutput w inputFileName = [] ->
  rmse (filter_GetOutput w inputFileName)
       (gpuFilter_GetOutput w inputFileName) = Some S754_nan
  /\ main w (prog :: inputFileName :: outputDirectory :: rest)
     = Returned EXIT_SUCCESS.
Proof.
  intros Hall Hempty.
  assert (Hr : rmse (filter_GetOutput w inputFileName)
                    (gpuFilter_GetOutput w inputFileName) = Some S754_nan)
    by (rewrite Hempty; reflexivity).
  split; [exact Hr |].
  rewrite main_when_calls_return by exact Hall. rewrite Hr. reflexivity.
Qed.

(** X16. The guard on argc lets one argument through: without arguments
    main returns EXIT_FAILURE, but with exactly one (argc = 2) it goes on
    and, when a GPU is present, builds outputDirectory from argv[2], which
    is behind the arguments given. *)
Theorem main_too_few_arguments (w : World) (argv : list string) :
  (length argv < 2 -> main w argv = Returned EXIT_FAILURE)
  /\ (length argv = 2 ->
      main w argv = if IsGPUAvailable w then UndefinedBehaviour
                    else Returned EXIT_FAILURE).
Proof.
  split; intros Hlen.
  - unfold main.
    replace (Z.of_nat (length argv) <? 2)%Z with true
      by (symmetry; apply Z.ltb_lt; lia).
    reflexivity.
  - destruct argv as [| prog [| inputFileName [| outputDirectory rest]]];
      try discriminate Hlen.
    unfold main. cbn. destruct (IsGPUAvailable w); reflexivity.
Qed.


(** When reader->Update() throws, nothing catches the exception: main
    does not return. *)
Lemma main_uncaught (w : World)
  (prog inputFileName outputDirectory : string) (rest : list string) :
  IsGPUAvailable w = true ->
  reader_Update w inputFileName = false ->
  main w (prog :: inputFileName :: outputDirectory :: rest) = Terminated.
Proof.
  intros Hgpu Hreader. unfold main. cbn [length nth_error].
  replace (Z.of_nat (S (S (S (length rest)))) <? 2)%Z with false
    by (symmetry; apply Z.ltb_ge; lia).
  rewrite Hgpu, Hreader. reflexivity.
Qed.
End ErrorMeasure.

(* ================================================================== *)
(** ** Evaluations of the further properties *)

Section FurtherEvaluations.
Import GPUCastImageFilterTest.
Local Open Scope string_scope.

(** Witness of X2: -2.0 <= 1.0, stored as 0.0 and 1.0. *)
Lemma SetStiffness_monotone_witness :
  SFleb dminus_two done_ = true
  /\ SFleb (GetStiffness (SetStiffness dminus_two fitted_empty))
           (GetStiffness (SetStiffness done_ two_landmarks)) = true.
Proof.
  split; [reflexivity |].
  apply (SetStiffness_monotone dminus_two done_ fitted_empty two_landmarks).
  reflexivity.
Defined.

(** Witness of X5: a SetStiffness and a SetAlpha call after
    SetPoissonRatio(3). *)
Lemma GetPoissonRatio_last_set_witness :
  existsb is_SetPoissonRatio [CallSetStiffness done_; CallSetAlpha 7%Z] = false
  /\ GetPoissonRatio
       (calls [CallSetStiffness done_; CallSetAlpha 7%Z]
              (SetPoissonRatio 3%Z fitted_empty)) = 3%Z.
Proof.
  split; [reflexivity |].
  apply (GetPoissonRatio_last_set 3%Z
           [CallSetStiffness done_; CallSetAlpha 7%Z] fitted_empty).
  reflexivity.
Defined.

Lemma occurs_dot_image_mha : occurs "." "image.mha".
Proof.
  unfold occurs. cbn. do 5 right. left. reflexivity.
Defined.

Lemma no_dot_in_image : ~ occurs "." "image".
Proof.
  unfold occurs. cbn. intros H.
  repeat (destruct H as [H | H]; [discriminate H |]). exact H.
Defined.

(** Witness of X7. *)
Lemma baseName_splits_at_last_dot_witness :
  occurs "." "image.mha"
  /\ exists ext,
       "image.mha" = baseName "image.mha" ++ String "." ext
       /\ ~ occurs "." ext.
Proof.
  split; [exact occurs_dot_image_mha |].
  apply (baseName_splits_at_last_dot "image.mha").
  exact occurs_dot_image_mha.
Defined.

(** Witness of X8. *)
Lemma baseName_without_dot_witness :
  ~ occurs "." "image"
  /\ (Z.of_nat (String.length "image") <= npos)%Z
  /\ rfind "image" "." = npos
  /\ baseName "image" = "image".
Proof.
  assert (Hlen : (Z.of_nat (String.length "image") <= npos)%Z)
    by (unfold npos; cbn; lia).
  split; [exact no_dot_in_image |]. split; [exact Hlen |].
  exact (baseName_without_dot "image" no_dot_in_image Hlen).
Defined.

(** Witness of X9: the directory of the input reappears in the output. *)
Lemma baseName_keeps_directory_witness :
  occurs "." "image.mha"
  /\ baseName ("dir/" ++ "image.mha") = "dir/" ++ baseName "image.mha".
Proof.
  split; [exact occurs_dot_image_mha |].
  apply (baseName_keeps_directory "dir/" "image.mha").
  exact occurs_dot_image_mha.
Defined.

Lemma occurs_dot_updir : occurs "." "../data/".
Proof.
  unfold occurs. cbn. left. reflexivity.
Defined.

(** Witness of X10: "../data/image" is cut to ".". *)
Lemma baseName_dot_in_directory_witness :
  ~ occurs "." "image"
  /\ occurs "." "../data/"
  /\ baseName ("../data/" ++ "image") = baseName "../data/".
Proof.
  split; [exact no_dot_in_image |]. split; [exact occurs_dot_updir |].
  exact (baseName_dot_in_directory "../data/" "image"
           no_dot_in_image occurs_dot_updir).
Defined.

Example baseName_updir : baseName "../data/image" = ".".
Proof. reflexivity. Qed.

(** Witness of X12: one more GPU pixel than CPU pixels. *)
Lemma rmse_reads_gpu_witness :
  length [float_one] <= length [float_one]
  /\ rmse [float_one] ([float_one] ++ [S754_nan]) = rmse [float_one] [float_one].
Proof.
  assert (Hle : length [float_one] <= length [float_one]) by (cbn; lia).
  split; [exact Hle |].
  exact (proj2 (rmse_reads_gpu [float_one] [float_one] [S754_nan]) Hle).
Defined.

(** Witness of X13. *)
Lemma main_equal_images_witness :
  all_calls_return (quiet_world [float_one] [float_one]) "image.mha" "out"
  = true
  /\ main (quiet_world [float_one] [float_one]) sample_argv
     = Returned EXIT_SUCCESS.
Proof.
  split; [reflexivity |].
  apply (main_equal_images (quiet_world [float_one] [float_one])
           "prog" "image.mha" "out" []); reflexivity.
Defined.

(** Witness of X14: the GPU image is NaN where the CPU image is 1.0. *)
Lemma main_nan_pixel_witness :
  all_calls_return (quiet_world [float_one] [S754_nan]) "image.mha" "out"
  = true
  /\ is_nan (nth 0 [S754_nan] dzero) = true
  /\ main (quiet_world [float_one] [S754_nan]) sample_argv
     = Returned EXIT_SUCCESS.
Proof.
  split; [reflexivity |]. split; [reflexivity |].
  apply (main_nan_pixel (quiet_world [float_one] [S754_nan])
           "prog" "image.mha" "out" [] 0).
  - reflexivity.
  - cbn. lia.
  - cbn. lia.
  - right. reflexivity.
Defined.

(** Witness of X15. *)
Lemma main_empty_image_witness :
  all_calls_return (quiet_world [] [float_one]) "image.mha" "out" = true
  /\ main (quiet_world [] [float_one]) sample_argv = Returned EXIT_SUCCESS.
Proof.
  split; [reflexivity |].
  apply (main_empty_image (quiet_world [] [float_one])
           "prog" "image.mha" "out" []); reflexivity.
Defined.

(** Witness of X16: the output directory is missing. *)
Lemma main_too_few_arguments_witness :
  length ["prog"; "image.mha"] = 2
  /\ main (quiet_world [float_one] [float_one]) ["prog"; "image.mha"]
     = UndefinedBehaviour.
Proof.
  split; [reflexivity |].
  exact (proj2 (main_too_few_arguments
                  (quiet_world [float_one] [float_one])
                  ["prog"; "image.mha"]) eq_refl).
Defined.

(** An unreadable input file ends the program without a return code. *)
Example main_unreadable_input :
  main (unreadable_world [float_one] [float_one]) sample_argv = Terminated.
Proof. reflexivity. Qed.

(** The check can fail: 0.0 against 1.0 gives rmse 1.0. *)
Example main_different_images :
  main (quiet_world [dzero] [float_one]) sample_argv = Returned EXIT_FAILURE.
Proof. reflexivity. Qed.

Example output_name_example :
  outputFileNameCPU "dir/image.mha" "out" = "out/dir/image-out-cpu.mha".
Proof. reflexivity. Qed.
End FurtherEvaluations.
